(** * Chat-template grammar (swift/llm/template/register.py) and the
      mean metric (swift/plugin/metric.py)

    A shallow embedding of [TemplateMeta], its token resolution, the
    template registry and [MeanMetric], with the properties the
    specification states about them. *)

From Stdlib Require Import ZArith String Ascii Bool QArith Qcanon SpecFloat.
From stdpp Require Import base option list gmap strings.

Local Open Scope string_scope.
Local Open Scope list_scope.

(** ** Python exceptions and fallible computations *)

Inductive exn : Type :=
  | AssertionError
  | AttributeError
  | ValueError
  | ZeroDivisionError.

Inductive result (A : Type) : Type :=
  | Ok (a : A)
  | Raise (e : exn).
Arguments Ok {A} a.
Arguments Raise {A} e.

#[global] Instance result_ret : MRet result := fun A a => Ok a.
#[global] Instance result_bind : MBind result := fun A B f r =>
  match r with
  | Ok a => f a
  | Raise e => Raise e
  end.

(** ** Python strings: [sub in s] and [s.replace(old, new)] *)

Module PyStr.

(** [sub in s]: some suffix of [s] starts with [sub]. *)
Fixpoint contains (sub s : string) : bool :=
  String.prefix sub s ||
  match s with
  | EmptyString => false
  | String _ s' => contains sub s'
  end.

(** [s.replace(old, new)] for a non-empty [old]: one scan from the left;
    at an occurrence of [old] emit [new] and skip the occurrence
    ([skip] counts the characters of it still to drop), otherwise copy
    the character. Occurrences are matched in the original text only. *)
Fixpoint replace_from (old new : string) (skip : nat) (s : string) : string :=
  match s with
  | EmptyString => EmptyString
  | String c s' =>
      match skip with
      | S k => replace_from old new k s'
      | O =>
          if String.prefix old s
          then new +:+ replace_from old new (String.length old - 1) s'
          else String c (replace_from old new 0 s')
      end
  end.

Definition replace (old new s : string) : string := replace_from old new 0 s.

End PyStr.

(** ** Prompts

    [Prompt = List[Union[str, List[int], List[str]]]]: a context is a piece
    of text or a list of tokens, each token an integer id or the name of a
    tokenizer attribute. [Word] has the same shape. *)

Inductive token : Type :=
  | TInt (i : Z)
  | TStr (s : string).

Inductive context : Type :=
  | CStr (s : string)
  | CList (l : list token).

Abbreviation Prompt := (list context).
Abbreviation Word := context.

#[global] Instance token_eq_dec : EqDecision token.
Proof. solve_decision. Defined.
#[global] Instance context_eq_dec : EqDecision context.
Proof. solve_decision. Defined.

Definition SYSTEM : string := "{{SYSTEM}}".
Definition QUERY : string := "{{QUERY}}".

(** ['{{SYSTEM}}' in p]: substring test on text, membership on a list. *)
Definition system_in (p : context) : bool :=
  match p with
  | CStr s => PyStr.contains SYSTEM s
  | CList l => existsb (fun t => bool_decide (t = TStr SYSTEM)) l
  end.

(** Classes are identified by their names. *)
Inductive template_class : Type := TemplateCls (name : string).

Definition Template : template_class := TemplateCls "Template".

(** ** TemplateMeta *)

(** The dataclass fields, as [__init__] receives or defaults them. The
    record is generic in how a segment list [P], the list of stop words [W]
    and the list of placeholder tokens [T] are held: by value, or by
    reference into the object store below. *)
Record Fields_of (P W T : Type) : Type := mkFields {
  template_type : string;
  prefix : P;
  prompt : P;
  chat_sep : option P;
  suffix : P;
  template_cls : template_class;
  tool_prompt : option P;
  system_prefix : option P;
  auto_add_bos : bool;
  default_system : option string;
  stop_words : W;
  placeholder_tokens : T;
  skip_prompt : bool;
  default_tools_prompt : string;
  support_stream : bool
}.
Arguments mkFields {P W T}.
Arguments template_type {P W T}.
Arguments prefix {P W T}.
Arguments prompt {P W T}.
Arguments chat_sep {P W T}.
Arguments suffix {P W T}.
Arguments template_cls {P W T}.
Arguments tool_prompt {P W T}.
Arguments system_prefix {P W T}.
Arguments auto_add_bos {P W T}.
Arguments default_system {P W T}.
Arguments stop_words {P W T}.
Arguments placeholder_tokens {P W T}.
Arguments skip_prompt {P W T}.
Arguments default_tools_prompt {P W T}.
Arguments support_stream {P W T}.

(** An instance after [__post_init__]: the (rewritten) fields and the
    attributes [__post_init__] adds; [system_prompt] is only set for
    post-system templates. *)
Record TemplateMeta_of (P W T : Type) : Type := mkTemplateMeta {
  fields :> Fields_of P W T;
  is_post_system : bool;
  system_prompt : option P;
  support_system : bool;
  support_multi_round : bool
}.
Arguments mkTemplateMeta {P W T}.
Arguments fields {P W T}.
Arguments is_post_system {P W T}.
Arguments system_prompt {P W T}.
Arguments support_system {P W T}.
Arguments support_multi_round {P W T}.

(** Instances by value. *)
Abbreviation Fields := (Fields_of Prompt (list Word) (list token)).
Abbreviation TemplateMeta := (TemplateMeta_of Prompt (list Word) (list token)).

Definition set_prefix {P W T} (v : P) (f : Fields_of P W T) : Fields_of P W T :=
  mkFields
    (template_type f) v (prompt f) (chat_sep f) (suffix f) (template_cls f)
    (tool_prompt f) (system_prefix f) (auto_add_bos f) (default_system f)
    (stop_words f) (placeholder_tokens f) (skip_prompt f)
    (default_tools_prompt f) (support_stream f).

Definition set_prompt {P W T} (v : P) (f : Fields_of P W T) : Fields_of P W T :=
  mkFields
    (template_type f) (prefix f) v (chat_sep f) (suffix f) (template_cls f)
    (tool_prompt f) (system_prefix f) (auto_add_bos f) (default_system f)
    (stop_words f) (placeholder_tokens f) (skip_prompt f)
    (default_tools_prompt f) (support_stream f).

Definition set_chat_sep {P W T} (v : option P) (f : Fields_of P W T) : Fields_of P W T :=
  mkFields
    (template_type f) (prefix f) (prompt f) v (suffix f) (template_cls f)
    (tool_prompt f) (system_prefix f) (auto_add_bos f) (default_system f)
    (stop_words f) (placeholder_tokens f) (skip_prompt f)
    (default_tools_prompt f) (support_stream f).

Definition set_suffix {P W T} (v : P) (f : Fields_of P W T) : Fields_of P W T :=
  mkFields
    (template_type f) (prefix f) (prompt f) (chat_sep f) v (template_cls f)
    (tool_prompt f) (system_prefix f) (auto_add_bos f) (default_system f)
    (stop_words f) (placeholder_tokens f) (skip_prompt f)
    (default_tools_prompt f) (support_stream f).

Definition set_tool_prompt {P W T} (v : option P) (f : Fields_of P W T) : Fields_of P W T :=
  mkFields
    (template_type f) (prefix f) (prompt f) (chat_sep f) (suffix f)
    (template_cls f) v (system_prefix f) (auto_add_bos f) (default_system f)
    (stop_words f) (placeholder_tokens f) (skip_prompt f)
    (default_tools_prompt f) (support_stream f).

Definition set_system_prefix {P W T} (v : option P) (f : Fields_of P W T) : Fields_of P W T :=
  mkFields
    (template_type f) (prefix f) (prompt f) (chat_sep f) (suffix f)
    (template_cls f) (tool_prompt f) v (auto_add_bos f) (default_system f)
    (stop_words f) (placeholder_tokens f) (skip_prompt f)
    (default_tools_prompt f) (support_stream f).

Definition set_default_system {P W T} (v : option string) (f : Fields_of P W T) : Fields_of P W T :=
  mkFields
    (template_type f) (prefix f) (prompt f) (chat_sep f) (suffix f)
    (template_cls f) (tool_prompt f) (system_prefix f) (auto_add_bos f) v
    (stop_words f) (placeholder_tokens f) (skip_prompt f)
    (default_tools_prompt f) (support_stream f).

(** [any(['{{SYSTEM}}' in p for p in prefix_or_prompt])] *)
Definition _has_system (prefix_or_prompt : Prompt) : bool :=
  existsb system_in prefix_or_prompt.

(** [p.replace('{{SYSTEM}}', '')]; a list has no [replace] attribute. *)
Definition replace_system_in (p : context) : result context :=
  match p with
  | CStr s => Ok (CStr (PyStr.replace SYSTEM "" s))
  | CList _ => Raise AttributeError
  end.

(** [[p.replace('{{SYSTEM}}', '') for p in prefix]] *)
Definition _replace_system (prefix : Prompt) : result Prompt :=
  mapM replace_system_in prefix.

(** [assert c] *)
Definition assert (c : bool) : result unit :=
  if c then Ok tt else Raise AssertionError.

(** Python truth value of a string. *)
Definition truthy (s : string) : bool :=
  match s with EmptyString => false | _ => true end.

(** [check_system(self, system)]; of [self] it reads [support_system]. *)
Definition check_system (support_system : bool) (system : option string)
  : result string :=
  let system := match system with None => "" | Some s => s end in
  _ ← (if truthy system then assert support_system else Ok tt);
  Ok system.

Definition is_None {A} (o : option A) : bool :=
  match o with None => true | Some _ => false end.

(** [__post_init__], run by the dataclass [__init__] on the fields. *)
Definition __post_init__ (self : Fields) : result TemplateMeta :=
  (* system *)
  self ← (if _has_system (prefix self) then
            _ ← assert (is_None (system_prefix self));
            let self := set_system_prefix (Some (prefix self)) self in
            prefix' ← _replace_system (prefix self);
            Ok (set_prefix prefix' self)
          else Ok self);
  let is_post_system := _has_system (prompt self) in
  let self :=
    if is_post_system
    then set_prompt (filter (fun context => negb (system_in context)) (prompt self)) self
    else self in
  let system_prompt := if is_post_system then Some (prompt self) else None in
  let support_system :=
    if is_None (system_prefix self) && negb is_post_system then false else true in
  default_system' ← check_system support_system (default_system self);
  let self := set_default_system (Some default_system') self in
  let support_multi_round := negb (is_None (chat_sep self)) in
  let self :=
    if is_None (tool_prompt self)
    then set_tool_prompt (Some (prompt self)) self (* default as user *)
    else self in
  Ok (mkTemplateMeta self is_post_system system_prompt support_system
        support_multi_round).

(** The constructor call [TemplateMeta(...)]. *)
Definition TemplateMeta_new (f : Fields) : result TemplateMeta := __post_init__ f.

(** [to_generation_template_meta]; [deepcopy] of a value is the value. *)
Definition to_generation_template_meta (self : TemplateMeta) : result TemplateMeta :=
  TemplateMeta_new
    {| template_type := template_type self;
       prefix := [];
       prompt := [CStr QUERY];
       chat_sep := None;
       suffix := [CList [TStr "eos_token_id"]];
       template_cls := template_cls self;
       tool_prompt := None;
       system_prefix := None;
       auto_add_bos := true;
       default_system := None;
       stop_words := stop_words self;
       placeholder_tokens := placeholder_tokens self;
       skip_prompt := skip_prompt self;
       default_tools_prompt := "react_en";
       support_stream := support_stream self |}.

(** ** Token resolution *)

(** The tokenizer is an object of the transformers library; of it the
    templates read attributes such as [eos_token_id], so it is taken as the
    finite map from attribute names to token ids. *)
Abbreviation PreTrainedTokenizerBase := (gmap string Z).

(** [getattr(tokenizer, name)] *)
Definition getattr (tokenizer : PreTrainedTokenizerBase) (name : string) : result Z :=
  match tokenizer !! name with
  | Some i => Ok i
  | None => Raise AttributeError
  end.

(** [getattr(tokenizer, sub_v) if isinstance(sub_v, str) else sub_v] *)
Definition sub_v_to_id (tokenizer : PreTrainedTokenizerBase) (sub_v : token)
  : result token :=
  match sub_v with
  | TStr name => i ← getattr tokenizer name; Ok (TInt i)
  | TInt _ => Ok sub_v
  end.

(** The body of the loop of [_token_attr_to_id] for one [v]. *)
Definition v_to_id (tokenizer : PreTrainedTokenizerBase) (v : context)
  : result context :=
  match v with
  | CList l => l' ← mapM (sub_v_to_id tokenizer) l; Ok (CList l')
  | CStr _ => Ok v
  end.

Definition _token_attr_to_id (tokenizer : PreTrainedTokenizerBase)
    (value : option Prompt) : result (option Prompt) :=
  match value with
  | None => Ok None
  | Some value => res_value ← mapM (v_to_id tokenizer) value; Ok (Some res_value)
  end.

(** The attribute names that hold segments. *)
Inductive key : Type :=
  | K_prefix | K_prompt | K_chat_sep | K_suffix | K_system_prefix | K_tool_prompt.

Definition with_fields {P W T} (f : Fields_of P W T) (self : TemplateMeta_of P W T)
  : TemplateMeta_of P W T :=
  mkTemplateMeta f (is_post_system self) (system_prompt self)
    (support_system self) (support_multi_round self).

(** [getattr(self, key)] *)
Definition getattr_key (self : TemplateMeta) (k : key) : option Prompt :=
  match k with
  | K_prefix => Some (prefix self)
  | K_prompt => Some (prompt self)
  | K_chat_sep => chat_sep self
  | K_suffix => Some (suffix self)
  | K_system_prefix => system_prefix self
  | K_tool_prompt => tool_prompt self
  end.

(** [setattr(self, key, value)]. [_token_attr_to_id] maps a list to a list,
    so [prefix], [prompt] and [suffix] are never set to [None]. *)
Definition setattr_key (self : TemplateMeta) (k : key) (value : option Prompt)
  : TemplateMeta :=
  match k, value with
  | K_prefix, Some v => with_fields (set_prefix v self) self
  | K_prompt, Some v => with_fields (set_prompt v self) self
  | K_suffix, Some v => with_fields (set_suffix v self) self
  | K_chat_sep, _ => with_fields (set_chat_sep value self) self
  | K_system_prefix, _ => with_fields (set_system_prefix value self) self
  | K_tool_prompt, _ => with_fields (set_tool_prompt value self) self
  | _, None => self
  end.

(** The [for key in ...] loop: the instance is updated in place key by key;
    an exception leaves the keys already done resolved. *)
Fixpoint token_attr_to_id_keys (tokenizer : PreTrainedTokenizerBase)
    (keys : list key) (self : TemplateMeta) : TemplateMeta * result unit :=
  match keys with
  | [] => (self, Ok tt)
  | key :: keys =>
      let value := getattr_key self key in
      match _token_attr_to_id tokenizer value with
      | Ok value => token_attr_to_id_keys tokenizer keys (setattr_key self key value)
      | Raise e => (self, Raise e)
      end
  end.

Definition token_attr_to_id (tokenizer : PreTrainedTokenizerBase)
    (self : TemplateMeta) : TemplateMeta * result unit :=
  token_attr_to_id_keys tokenizer
    [K_prefix; K_prompt; K_chat_sep; K_suffix; K_system_prefix] self.

(** Resolution as the specification words it: all six segment fields. *)
Definition resolve_six_fields (tokenizer : PreTrainedTokenizerBase)
    (self : TemplateMeta) : TemplateMeta * result unit :=
  token_attr_to_id_keys tokenizer
    [K_prefix; K_prompt; K_chat_sep; K_suffix; K_system_prefix; K_tool_prompt] self.

(** A token that names a tokenizer attribute. *)
Definition symbolic (t : token) : bool :=
  match t with TStr _ => true | TInt _ => false end.

Definition context_symbolic (c : context) : bool :=
  match c with CStr _ => false | CList l => existsb symbolic l end.

Definition prompt_symbolic (p : Prompt) : bool := existsb context_symbolic p.

(** ** The registry

    [TEMPLATE_MAPPING] maps a template type to
    [{'template_meta': template_meta, **kwargs}]; [template_meta] is a
    parameter of [register_template], so [kwargs] never binds that key. *)
Section Registry.

Context {Any : Type}.

Record template_info : Type := mkInfo {
  template_meta : TemplateMeta;
  info_kwargs : gmap string Any
}.

(** [register_template], as a transition of the global [TEMPLATE_MAPPING]. *)
Definition register_template (template_meta : TemplateMeta) (exist_ok : bool)
    (kwargs : gmap string Any) (TEMPLATE_MAPPING : gmap string template_info)
  : gmap string template_info * result unit :=
  let template_type := template_type template_meta in
  if negb exist_ok && bool_decide (is_Some (TEMPLATE_MAPPING !! template_type))
  then (TEMPLATE_MAPPING, Raise ValueError)
  else
    let template_info := mkInfo template_meta kwargs in
    (<[template_type := template_info]> TEMPLATE_MAPPING, Ok tt).

End Registry.

(** ** MeanMetric

    The numbers a metric accumulates are Python ints and floats (tensors
    and arrays through [tolist()]); the model is generic in them: a type
    [num] with the addition [add], the int [0] that [sum] starts from, the
    float [0.] the state starts from, and true division by a count. *)
Section MeanMetric.

Context {num : Type}.
Variable add : num -> num -> num.
Variable int_zero : num.
Variable float_zero : num.
Variable truediv : num -> Z -> num.

(** The argument of [update]: a scalar, or a list or tuple of scalars. *)
Inductive update_arg : Type :=
  | Scalar (x : num)
  | Items (xs : list num).

Record MeanMetric : Type := mkMeanMetric {
  state : num;
  count : Z
}.

(** [__init__]: [add_state('state', default=0.)], [add_state('count', default=0)] *)
Definition MeanMetric_init : MeanMetric := mkMeanMetric float_zero 0.

(** The builtin [sum]: a left fold from the int [0]. *)
Definition sum (xs : list num) : num := fold_left add xs int_zero.

Definition update (self : MeanMetric) (arg : update_arg) : MeanMetric :=
  let '(state', count') :=
    match arg with
    | Items xs => (sum xs, Z.of_nat (List.length xs))
    | Scalar x => (x, 1%Z)
    end in
  mkMeanMetric (add (state self) state') (count self + count')%Z.

(** [x / n]: division by zero raises. *)
Definition div (x : num) (n : Z) : result num :=
  if (n =? 0)%Z then Raise ZeroDivisionError else Ok (truediv x n).

(** The ['value'] entry of the dict that [compute] returns. *)
Definition compute (self : MeanMetric) : result num :=
  if (0 <? count self)%Z then div (state self) (count self) else Ok int_zero.

(** A run of [update] calls on a new metric. *)
Definition updates (args : list update_arg) : MeanMetric :=
  fold_left update args MeanMetric_init.

(** All scalar items of a run, in the order seen. *)
Definition items_of (arg : update_arg) : list num :=
  match arg with Scalar x => [x] | Items xs => xs end.

Definition items_seen (args : list update_arg) : list num :=
  concat (map items_of args).

End MeanMetric.

(** *** Exact values

    What a run would give without rounding is stated on exact values: [val]
    sends a number to its value in [R], where [radd] is the exact sum and
    [rzero] its neutral element. An addition of the run is exact when the
    value of its result is the exact sum of the values. *)
Section MeanMetricExact.

Context {num R : Type}.
Variable add : num -> num -> num.
Variable int_zero : num.
Variable val : num -> R.
Variable radd : R -> R -> R.
Variable rzero : R.

(** What one [update] adds to the state. *)
Definition contribution (arg : update_arg) : num :=
  match arg with
  | Scalar x => x
  | Items xs => sum add int_zero xs
  end.

Definition exact_add (a b : num) : Prop :=
  val (add a b) = radd (val a) (val b).

(** The additions of [fold_left add xs a]. *)
Fixpoint exact_sum (xs : list num) (a : num) : Prop :=
  match xs with
  | [] => True
  | x :: xs => exact_add a x /\ exact_sum xs (add a x)
  end.

(** The additions of one [update]: those of [sum], and the one to the
    state. *)
Definition exact_update (self : MeanMetric) (arg : update_arg) : Prop :=
  match arg with
  | Scalar x => exact_add (state self) x
  | Items xs =>
      exact_sum xs int_zero /\ exact_add (state self) (sum add int_zero xs)
  end.

(** The additions of a run of [update] calls from [self]. *)
Fixpoint exact_updates (args : list update_arg) (self : MeanMetric) : Prop :=
  match args with
  | [] => True
  | arg :: args =>
      exact_update self arg /\ exact_updates args (update add int_zero self arg)
  end.

(** The exact sum of values. *)
Definition rsum (rs : list R) : R := fold_right radd rzero rs.

End MeanMetricExact.

(** *** The numbers of a run, in binary64

    A Python float is an IEEE 754 binary64 number: 53 bits of precision,
    exponents below 1024, every operation rounded to the nearest value with
    ties to even, as [SpecFloat] writes it out. The items of a run are
    floats: what [tolist()] gives for a float tensor or array, and Python
    floats passed as they are. The one int is the [0] that [sum] starts
    from and that [compute] returns when no item was seen; an operation
    with a float converts it to [0.0].

    [sum] adds from the left, one rounded addition per item. (CPython 3.12
    and later carry a correction term through a sum of floats; the term is
    zero unless an addition rounds.) *)
Inductive pynum : Type :=
  | PyInt0
  | PyFloat (f : spec_float).

(** [float(z)] of an int [z]: the nearest binary64 number. *)
Definition float_of_Z (z : Z) : spec_float := binary_normalize 53 1024 z 0 false.

Definition as_float (x : pynum) : spec_float :=
  match x with
  | PyInt0 => S754_zero false
  | PyFloat f => f
  end.

(** [x + y] *)
Definition py_add (x y : pynum) : pynum :=
  match x, y with
  | PyInt0, PyInt0 => PyInt0
  | _, _ => PyFloat (SFadd 53 1024 (as_float x) (as_float y))
  end.

(** [x / n] for a count [n]: the count is converted to a float first. (A
    count of [2^1024] or more, whose conversion Python refuses with an
    [OverflowError], is beyond any run and has no case here.) *)
Definition py_truediv (x : pynum) (n : Z) : pynum :=
  PyFloat (SFdiv 53 1024 (as_float x) (float_of_Z n)).

(** The exact value of a number, a rational; an infinity and a NaN have
    none. *)
Definition py_val (x : pynum) : option Qc :=
  match as_float x with
  | S754_zero _ => Some (Q2Qc 0)
  | S754_finite s m e =>
      Some (Q2Qc (inject_Z (cond_Zopp s (Zpos m)) * Qpower (2 # 1) e))
  | S754_infinity _ | S754_nan => None
  end.

(** The exact sum of two values and the exact quotient by a count. *)
Definition val_add (a b : option Qc) : option Qc :=
  match a, b with
  | Some x, Some y => Some (x + y)%Qc
  | _, _ => None
  end.

Definition val_div (a : option Qc) (n : Z) : option Qc :=
  match a with
  | Some x => Some (x / Q2Qc (inject_Z n))%Qc
  | None => None
  end.

(** A new [MeanMetric] on these numbers and a run on it. *)
Definition py_updates (args : list (@update_arg pynum)) : @MeanMetric pynum :=
  updates py_add PyInt0 (PyFloat (S754_zero false)) args.

Definition py_compute (self : @MeanMetric pynum) : result pynum :=
  compute PyInt0 py_truediv self.

(** The float nearest to [z * 2^e], as an item. *)
Definition pyfloat (z e : Z) : pynum := PyFloat (binary_normalize 53 1024 z e false).

(** A run of three scalars whose additions round: [1e16], [1.0], [1.0]. *)
Definition rounding_run : list (@update_arg pynum) :=
  [Scalar (pyfloat (10 ^ 16) 0); Scalar (pyfloat 1 0); Scalar (pyfloat 1 0)].

(** A run without rounding: [1.5], the batch [2.0, 0.25], an empty batch
    and [0.25]. *)
Definition exact_run : list (@update_arg pynum) :=
  [Scalar (pyfloat 3 (-1)); Items [pyfloat 2 0; pyfloat 1 (-2)]; Items [];
   Scalar (pyfloat 1 (-2))].

(** ** The object store

    Python lists are mutable objects and attributes hold references to
    them. To state what is shared, the segment lists live in a store: an
    outer list holds text and references to inner token lists. Text, ints
    and the class are immutable and held by value. *)

Abbreviation loc := nat.

Inductive item : Type :=
  | IStr (s : string)
  | IRef (l : loc).

Inductive object : Type :=
  | OList (xs : list item)
  | OTokens (ts : list token).

Abbreviation store := (list object).

(** Instances by reference. *)
Abbreviation FieldsRef := (Fields_of loc loc loc).
Abbreviation TemplateMetaRef := (TemplateMeta_of loc loc loc).

(** A computation on the store: it raises or returns, and the store goes
    on; [None] is a reference to no object or to one of the wrong kind,
    which no Python state has. *)
Definition heapM (A : Type) : Type := store -> option (result A * store).

#[global] Instance heapM_ret : MRet heapM := fun A a h => Some (Ok a, h).
#[global] Instance heapM_bind : MBind heapM := fun A B k m h =>
  match m h with
  | Some (Ok a, h') => k a h'
  | Some (Raise e, h') => Some (Raise e, h')
  | None => None
  end.

Definition lift {A} (r : result A) : heapM A := fun h => Some (r, h).

(** A list display or comprehension makes a new object. *)
Definition new (o : object) : heapM loc := fun h => Some (Ok (List.length h), h ++ [o]).

Definition get_list (l : loc) : heapM (list item) := fun h =>
  match h !! l with
  | Some (OList xs) => Some (Ok xs, h)
  | _ => None
  end.

Definition get_tokens (l : loc) : heapM (list token) := fun h =>
  match h !! l with
  | Some (OTokens ts) => Some (Ok ts, h)
  | _ => None
  end.

(** The value an item, a list and an instance stand for in a store. *)
Definition read_item (h : store) (x : item) : option context :=
  match x with
  | IStr s => Some (CStr s)
  | IRef l =>
      match h !! l with
      | Some (OTokens ts) => Some (CList ts)
      | _ => None
      end
  end.

Definition read_list (h : store) (l : loc) : option (list context) :=
  match h !! l with
  | Some (OList xs) => mapM (read_item h) xs
  | _ => None
  end.

Definition read_tokens (h : store) (l : loc) : option (list token) :=
  match h !! l with
  | Some (OTokens ts) => Some ts
  | _ => None
  end.

Definition read_opt (h : store) (o : option loc) : option (option (list context)) :=
  match o with
  | None => Some None
  | Some l => p ← read_list h l; Some (Some p)
  end.

Definition read_fields (h : store) (f : FieldsRef) : option Fields :=
  prefix' ← read_list h (prefix f);
  prompt' ← read_list h (prompt f);
  chat_sep' ← read_opt h (chat_sep f);
  suffix' ← read_list h (suffix f);
  tool_prompt' ← read_opt h (tool_prompt f);
  system_prefix' ← read_opt h (system_prefix f);
  stop_words' ← read_list h (stop_words f);
  placeholder_tokens' ← read_tokens h (placeholder_tokens f);
  Some (mkFields (template_type f) prefix' prompt' chat_sep' suffix'
          (template_cls f) tool_prompt' system_prefix' (auto_add_bos f)
          (default_system f) stop_words' placeholder_tokens' (skip_prompt f)
          (default_tools_prompt f) (support_stream f)).

Definition read_meta (h : store) (m : TemplateMetaRef) : option TemplateMeta :=
  f ← read_fields h m;
  system_prompt' ← read_opt h (system_prompt m);
  Some (mkTemplateMeta f (is_post_system m) system_prompt' (support_system m)
          (support_multi_round m)).

(** The list objects an instance reaches: its lists and their inner lists. *)
Definition inner_refs (xs : list item) : list loc :=
  omap (fun x => match x with IRef l => Some l | IStr _ => None end) xs.

Definition reach_list (h : store) (l : loc) : list loc :=
  l :: match h !! l with
       | Some (OList xs) => inner_refs xs
       | _ => []
       end.

Definition reach_opt (h : store) (o : option loc) : list loc :=
  match o with
  | None => []
  | Some l => reach_list h l
  end.

Definition containers (h : store) (m : TemplateMetaRef) : list loc :=
  reach_list h (prefix m) ++ reach_list h (prompt m) ++
  reach_opt h (chat_sep m) ++ reach_list h (suffix m) ++
  reach_opt h (tool_prompt m) ++ reach_opt h (system_prefix m) ++
  reach_opt h (system_prompt m) ++
  reach_list h (stop_words m) ++ [placeholder_tokens m].

(** *** [__post_init__] on the store *)

(** [_has_system] only reads. *)
Definition _has_system_ref (prefix_or_prompt : loc) : heapM bool := fun h =>
  p ← read_list h prefix_or_prompt; Some (Ok (_has_system p), h).

Definition replace_system_item (p : item) : result item :=
  match p with
  | IStr s => Ok (IStr (PyStr.replace SYSTEM "" s))
  | IRef _ => Raise AttributeError
  end.

(** The comprehension of [_replace_system] makes a new list. *)
Definition _replace_system_ref (prefix : loc) : heapM loc :=
  xs ← get_list prefix;
  ys ← lift (mapM replace_system_item xs);
  new (OList ys).

Definition item_system_in (h : store) (x : item) : bool :=
  match read_item h x with
  | Some c => system_in c
  | None => false
  end.

(** [[context for context in self.prompt if '{{SYSTEM}}' not in context]]:
    a new outer list; the inner lists kept are the same objects. *)
Definition filter_system_ref (prompt : loc) : heapM loc :=
  xs ← get_list prompt;
  ys ← (fun h => Some (Ok (filter (fun x => negb (item_system_in h x)) xs), h));
  new (OList ys).

Definition __post_init___ref (self : FieldsRef) : heapM TemplateMetaRef :=
  has ← _has_system_ref (prefix self);
  self ← (if has : bool then
            _ ← lift (assert (is_None (system_prefix self)));
            let self := set_system_prefix (Some (prefix self)) self in
            prefix' ← _replace_system_ref (prefix self);
            mret (set_prefix prefix' self)
          else mret self);
  is_post_system ← _has_system_ref (prompt self);
  self ← (if is_post_system : bool then
            prompt' ← filter_system_ref (prompt self);
            mret (set_prompt prompt' self)
          else mret self);
  let system_prompt := if is_post_system : bool then Some (prompt self) else None in
  let support_system :=
    if is_None (system_prefix self) && negb is_post_system then false else true in
  default_system' ← lift (check_system support_system (default_system self));
  let self := set_default_system (Some default_system') self in
  let support_multi_round := negb (is_None (chat_sep self)) in
  let self :=
    if is_None (tool_prompt self)
    then set_tool_prompt (Some (prompt self)) self
    else self in
  mret (mkTemplateMeta self is_post_system system_prompt support_system
          support_multi_round).

(** *** [deepcopy] and [to_generation_template_meta] on the store *)

(** [deepcopy] of the items of a list: text is immutable and kept; an
    inner list is copied into a new object, once per object ([memo]). *)
Fixpoint deepcopy_items (memo : gmap loc loc) (xs : list item) : heapM (list item) :=
  match xs with
  | [] => mret []
  | IStr s :: xs => ys ← deepcopy_items memo xs; mret (IStr s :: ys)
  | IRef l :: xs =>
      match memo !! l with
      | Some l' => ys ← deepcopy_items memo xs; mret (IRef l' :: ys)
      | None =>
          ts ← get_tokens l;
          l' ← new (OTokens ts);
          ys ← deepcopy_items (<[l := l']> memo) xs;
          mret (IRef l' :: ys)
      end
  end.

Definition deepcopy_list (l : loc) : heapM loc :=
  xs ← get_list l;
  ys ← deepcopy_items ∅ xs;
  new (OList ys).

Definition deepcopy_tokens (l : loc) : heapM loc :=
  ts ← get_tokens l;
  new (OTokens ts).

Definition to_generation_template_meta_ref (self : TemplateMetaRef)
  : heapM TemplateMetaRef :=
  prefix' ← new (OList []);
  prompt' ← new (OList [IStr QUERY]);
  eos ← new (OTokens [TStr "eos_token_id"]);
  suffix' ← new (OList [IRef eos]);
  stop_words' ← deepcopy_list (stop_words self);
  placeholder_tokens' ← deepcopy_tokens (placeholder_tokens self);
  __post_init___ref
    {| template_type := template_type self;
       prefix := prefix';
       prompt := prompt';
       chat_sep := None;
       suffix := suffix';
       template_cls := template_cls self;
       tool_prompt := None;
       system_prefix := None;
       auto_add_bos := true;
       default_system := None;
       stop_words := stop_words';
       placeholder_tokens := placeholder_tokens';
       skip_prompt := skip_prompt self;
       default_tools_prompt := "react_en";
       support_stream := support_stream self |}.

(** ** Auxiliary definitions for the properties *)

(** The character [c] occurs in [s]. *)
Fixpoint has_char (c : ascii) (s : string) : bool :=
  match s with
  | EmptyString => false
  | String d s' => bool_decide (d = c) || has_char c s'
  end.

(** Every ["{"] of [s] belongs to an occurrence of the placeholder that the
    scan of [replace] finds. *)
Fixpoint braces_in_system_from (skip : nat) (s : string) : bool :=
  match s with
  | EmptyString => true
  | String c s' =>
      match skip with
      | S k => braces_in_system_from k s'
      | O =>
          if String.prefix SYSTEM s
          then braces_in_system_from (String.length SYSTEM - 1) s'
          else negb (bool_decide (c = "{"%char)) && braces_in_system_from 0 s'
      end
  end.

Definition braces_in_system (s : string) : bool := braces_in_system_from 0 s.

(** The prompt, the system prefix and the system support of the instance
    that [__post_init__] returns, as functions of the fields given. *)
Definition post_init_prompt (f : Fields) : Prompt :=
  if _has_system (prompt f)
  then filter (fun context => negb (system_in context)) (prompt f)
  else prompt f.

Definition post_init_system_prefix (f : Fields) : option Prompt :=
  if _has_system (prefix f) then Some (prefix f) else system_prefix f.

Definition post_init_support_system (f : Fields) : bool :=
  if is_None (post_init_system_prefix f) && negb (_has_system (prompt f))
  then false else true.

(** The parts of [__post_init__] that follow the handling of the prefix:
    [post_init_tail] from the computation of [support_system] on, which
    makes no list and is the same code by value and by reference;
    [post_init_rest] and [post_init_rest_ref] from the test of the prompt
    on. *)
Definition post_init_tail {P W T} (self : Fields_of P W T) (is_post_system : bool)
  : result (TemplateMeta_of P W T) :=
  let system_prompt := if is_post_system then Some (prompt self) else None in
  let support_system :=
    if is_None (system_prefix self) && negb is_post_system then false else true in
  default_system' ← check_system support_system (default_system self);
  let self := set_default_system (Some default_system') self in
  let support_multi_round := negb (is_None (chat_sep self)) in
  let self :=
    if is_None (tool_prompt self)
    then set_tool_prompt (Some (prompt self)) self
    else self in
  Ok (mkTemplateMeta self is_post_system system_prompt support_system
        support_multi_round).

Definition post_init_rest (self : Fields) : result TemplateMeta :=
  let is_post_system := _has_system (prompt self) in
  let self :=
    if is_post_system
    then set_prompt (filter (fun context => negb (system_in context)) (prompt self)) self
    else self in
  post_init_tail self is_post_system.

Definition post_init_rest_ref (self : FieldsRef) : heapM TemplateMetaRef :=
  is_post_system ← _has_system_ref (prompt self);
  self ← (if is_post_system : bool then
            prompt' ← filter_system_ref (prompt self);
            mret (set_prompt prompt' self)
          else mret self);
  lift (post_init_tail self is_post_system).

(** The three places that can declare the system placeholder. *)
Definition declarations (f : Fields) : list bool :=
  [_has_system (prefix f); negb (is_None (system_prefix f)); _has_system (prompt f)].

Definition declared_twice (f : Fields) : bool :=
  (2 <=? List.length (filter (fun b => b = true) (declarations f)))%nat.

(** A chat format with the placeholder both in [prefix] and in [prompt]. *)
Definition both_prefix_and_prompt : Fields :=
  {| template_type := "both";
     prefix := [CStr "<s>{{SYSTEM}}"];
     prompt := [CStr "{{SYSTEM}}"; CStr "{{QUERY}}"];
     chat_sep := None;
     suffix := [CList [TStr "eos_token_id"]];
     template_cls := Template;
     tool_prompt := None;
     system_prefix := None;
     auto_add_bos := false;
     default_system := None;
     stop_words := [];
     placeholder_tokens := [];
     skip_prompt := true;
     default_tools_prompt := "react_en";
     support_stream := true |}.

(** A format without system support. *)
Definition no_system_fields : Fields :=
  {| template_type := "plain";
     prefix := [];
     prompt := [CStr "{{QUERY}}"];
     chat_sep := None;
     suffix := [CList [TStr "eos_token_id"]];
     template_cls := Template;
     tool_prompt := None;
     system_prefix := None;
     auto_add_bos := false;
     default_system := None;
     stop_words := [];
     placeholder_tokens := [];
     skip_prompt := true;
     default_tools_prompt := "react_en";
     support_stream := true |}.

(** In text, ["{"] occurs only inside occurrences of the placeholder. *)
Definition tidy (c : context) : bool :=
  match c with
  | CStr s => braces_in_system s
  | CList _ => true
  end.

(** A prefix that nests the placeholder in the text around an occurrence. *)
Definition nested_placeholder : Fields :=
  set_prefix [CStr "{{SYS{{SYSTEM}}TEM}}"] no_system_fields.

(** A chatml-like format with the system turn in the prefix. *)
Definition chatml_fields : Fields :=
  set_prefix [CStr "<|im_start|>system {{SYSTEM}}<|im_end|>"]
    (set_prompt [CStr "<|im_start|>user {{QUERY}}<|im_end|><|im_start|>assistant"]
       no_system_fields).

(** The instance with the five resolved segment lists in place. *)
Definition resolved_instance (self : TemplateMeta) (prefix' prompt' : Prompt)
    (chat_sep' : option Prompt) (suffix' : Prompt) (system_prefix' : option Prompt)
  : TemplateMeta :=
  mkTemplateMeta
    (mkFields (template_type self) prefix' prompt' chat_sep' suffix'
       (template_cls self) (tool_prompt self) system_prefix' (auto_add_bos self)
       (default_system self) (stop_words self) (placeholder_tokens self)
       (skip_prompt self) (default_tools_prompt self) (support_stream self))
    (is_post_system self) (system_prompt self) (support_system self)
    (support_multi_round self).

(** A format whose prompt starts with the beginning-of-sequence token. *)
Definition bos_prompt_fields : Fields :=
  set_prompt [CList [TStr "bos_token_id"]; CStr "{{QUERY}}"] no_system_fields.

Definition small_tokenizer : PreTrainedTokenizerBase :=
  {[ "bos_token_id" := 1%Z; "eos_token_id" := 2%Z ]}.

(** The instance constructed from [bos_prompt_fields]. *)
Definition bos_prompt_meta : TemplateMeta :=
  mkTemplateMeta
    (set_tool_prompt (Some (prompt bos_prompt_fields))
       (set_default_system (Some "") bos_prompt_fields))
    false None false false.

(** The instance constructed from [no_system_fields]. *)
Definition no_system_meta : TemplateMeta :=
  mkTemplateMeta
    (set_tool_prompt (Some (prompt no_system_fields))
       (set_default_system (Some "") no_system_fields))
    false None false false.

(** The memo of a [deepcopy] running from store [h0]: it sends inner lists
    of [h0] to equal lists made since. *)
Definition memo_ok (h0 h : store) (memo : gmap loc loc) : Prop :=
  forall l l', memo !! l = Some l' ->
    List.length h0 <= l' /\
    exists ts, h0 !! l = Some (OTokens ts) /\ h !! l' = Some (OTokens ts).

(** A store with an instance whose stop words share one inner list. *)
Definition sample_store : store :=
  [ OList [IStr "<s>"];
    OList [IStr "{{QUERY}}"];
    OTokens [TStr "eos_token_id"];
    OList [IRef 2];
    OList [IStr "<|end|>"; IRef 2; IRef 2];
    OTokens [TInt 7] ].

Definition sample_self : TemplateMetaRef :=
  mkTemplateMeta
    (mkFields "sample" 0 1 None 3 Template (Some 1) None false (Some "") 4 5
       true "react_en" true)
    false None false false.

(** ** Definitions for the further properties *)

(** A context that is text. *)
Definition is_text (c : context) : bool :=
  match c with CStr _ => true | CList _ => false end.

(** The tokenizer attributes a token list, a prompt and the five segment
    fields of the resolution loop name. *)
Definition token_names (l : list token) : list string :=
  omap (fun t => match t with TStr name => Some name | TInt _ => None end) l.

Definition prompt_names (p : Prompt) : list string :=
  flat_map (fun c => match c with CStr _ => [] | CList l => token_names l end) p.

Definition loop_names (self : TemplateMeta) : list string :=
  prompt_names (prefix self) ++ prompt_names (prompt self) ++
  from_option prompt_names [] (chat_sep self) ++ prompt_names (suffix self) ++
  from_option prompt_names [] (system_prefix self).

(** What resolution makes of a token and of a context. *)
Definition token_resolves (tokenizer : PreTrainedTokenizerBase) (t t' : token) : Prop :=
  match t with
  | TInt i => t' = TInt i
  | TStr name => exists i, tokenizer !! name = Some i /\ t' = TInt i
  end.

Definition context_resolves (tokenizer : PreTrainedTokenizerBase) (c c' : context)
  : Prop :=
  match c, c' with
  | CStr s, CStr s' => s = s'
  | CList l, CList l' => Forall2 (token_resolves tokenizer) l l'
  | _, _ => False
  end.

(** The attributes of an instance that are no segment field of the loop. *)
Definition same_outside_loop (self self' : TemplateMeta) : Prop :=
  template_type self' = template_type self /\
  template_cls self' = template_cls self /\
  tool_prompt self' = tool_prompt self /\
  auto_add_bos self' = auto_add_bos self /\
  default_system self' = default_system self /\
  stop_words self' = stop_words self /\
  placeholder_tokens self' = placeholder_tokens self /\
  skip_prompt self' = skip_prompt self /\
  default_tools_prompt self' = default_tools_prompt self /\
  support_stream self' = support_stream self /\
  is_post_system self' = is_post_system self /\
  system_prompt self' = system_prompt self /\
  support_system self' = support_system self /\
  support_multi_round self' = support_multi_round self.

#[global] Instance key_eq_dec : EqDecision key.
Proof. solve_decision. Defined.

(** The keys of the loop of [token_attr_to_id]. *)
Definition loop_keys : list key :=
  [K_prefix; K_prompt; K_chat_sep; K_suffix; K_system_prefix].

(** An instance under another template type. *)
Definition both_meta_sample : TemplateMeta :=
  mkTemplateMeta
    (mkFields "both" [CStr "<s>"] [CStr "{{QUERY}}"] None
       [CList [TStr "eos_token_id"]] Template (Some [CStr "{{QUERY}}"])
       (Some [CStr "<s>{{SYSTEM}}"]) false (Some "") [] [] true "react_en" true)
    true (Some [CStr "{{QUERY}}"]) true false.

(** ** get_template *)

(** Exceptions beyond those of the constructor; [OtherError] is an
    exception of any other class, by the name of the class. *)
Inductive pyexn : Type :=
  | Exn (e : exn)
  | KeyError (key : string)
  | TypeError
  | OtherError (cls : string).

Inductive outcome (A : Type) : Type :=
  | Return (a : A)
  | Throw (e : pyexn).
Arguments Return {A} a.
Arguments Throw {A} e.

Section GetTemplate.

Context {Any : Type}.

(** What [get_template] hands on to [_init_template]. *)
Record init_args : Type := mkInitArgs {
  arg_tokenizer : PreTrainedTokenizerBase;
  arg_default_system : option string;
  arg_max_length : option Z;
  arg_truncation_strategy : string;
  arg_loss_scale : string;
  arg_max_pixels : Z;
  arg_sequence_parallel_size : Z;
  arg_tools_prompt : string
}.

(** [Template._init_template] is a method of the class in base.py: it sets
    the template up in place and may raise; here, the template after the
    call or the exception. *)
Variable _init_template : Any -> init_args -> outcome Any.

(** [get_template]: [template_info['template']] is an entry of the kwargs
    given at registration (the key differs from ['template_meta']); the
    [deepcopy] of a value is the value, and the registry is only read. *)
Definition get_template (template_type : string) (args : init_args)
    (TEMPLATE_MAPPING : gmap string (@template_info Any)) : outcome Any :=
  match TEMPLATE_MAPPING !! template_type with
  | None => Throw (KeyError template_type)
  | Some template_info =>
      match info_kwargs template_info !! "template" with
      | None => Throw (KeyError "template")
      | Some template => _init_template template args
      end
  end.

End GetTemplate.

(** ** Metric

    The base class keeps two dicts, [_default] and [_default_factory], and
    sets each state as an attribute. Dicts are lists of items in insertion
    order. A registered factory is any object: [None] stands for one that
    cannot be called (the default [None] of the argument, or another
    object that is no callable), and a callable reads and changes the
    world [W] (the clock of [time.perf_counter]), not the instance, and
    returns a value or raises. The values [V] are immutable (numbers): a
    mutable default would be one object with the attribute it is assigned
    to. The instance is of a class that defines no descriptor of its own,
    as [MeanMetric] and [InferStats] are. *)
Section Metric.

Context {V W : Type}.

(** [d[k] = v]: in place for a key that is present, else at the end. *)
Fixpoint dict_set {A} (k : string) (v : A) (d : list (string * A))
  : list (string * A) :=
  match d with
  | [] => [(k, v)]
  | (k', v') :: d' =>
      if decide (k = k') then (k, v) :: d' else (k', v') :: dict_set k v d'
  end.

(** [k in d] *)
Definition dict_has {A} (k : string) (d : list (string * A)) : bool :=
  bool_decide (k ∈ d.*1).

(** [d[k]] *)
Fixpoint dict_get {A} (k : string) (d : list (string * A)) : option A :=
  match d with
  | [] => None
  | (k', v') :: d' => if decide (k = k') then Some v' else dict_get k d'
  end.

(** An instance: the two tables ([None] before [Metric.__init__] has run)
    and the other attributes. *)
Record Metric : Type := mkMetric {
  tables : option (list (string * V)
                   * list (string * option (W -> outcome V * W)));
  attrs : gmap string V
}.

(** The two attribute names that hold the tables; a state of such a name
    would replace a table and is outside this model ([None] below). *)
Definition reserved (name : string) : bool :=
  bool_decide (name = "_default") || bool_decide (name = "_default_factory").

(** [Metric.__init__] *)
Definition Metric_init (self : Metric) : Metric :=
  mkMetric (Some ([], [])) (attrs self).

(** The entry [name] of the instance dict set to [value]. *)
Definition set_state (name : string) (value : V) (self : Metric) : Metric :=
  mkMetric (tables self) (<[name := value]> (attrs self)).

(** The names that [setattr] refuses for a number: [__class__], [__dict__]
    and [__weakref__] are data descriptors of every such instance; the
    first two want a class and a dict ([TypeError]), the third cannot be
    written ([AttributeError]). *)
Definition setattr_refused (name : string) : option pyexn :=
  if decide (name = "__class__") then Some TypeError
  else if decide (name = "__dict__") then Some TypeError
  else if decide (name = "__weakref__") then Some (Exn AttributeError)
  else None.

(** [setattr(self, name, value)]: any other name is an entry of the
    instance dict (a method of that name is shadowed, not replaced). *)
Definition setattr (self : Metric) (name : string) (value : V)
  : Metric * outcome unit :=
  match setattr_refused name with
  | Some e => (self, Throw e)
  | None => (set_state name value self, Return tt)
  end.

(** [add_state]: the table is written before the assertion is checked. *)
Definition add_state (self : Metric) (name : string) (default : option V)
    (default_factory : option (W -> outcome V * W)) (w : W)
  : option (Metric * outcome unit * W) :=
  if reserved name then None else
  Some
    match tables self with
    | None => (self, Throw (Exn AttributeError), w)
    | Some (d, df) =>
        match default with
        | None =>
            let self := mkMetric (Some (d, dict_set name default_factory df))
                          (attrs self) in
            if dict_has name d then (self, Throw (Exn AssertionError), w)
            else
              match default_factory with
              | None => (self, Throw TypeError, w)
              | Some factory =>
                  match factory w with
                  | (Return default, w) =>
                      let '(self, r) := setattr self name default in
                      (self, r, w)
                  | (Throw e, w) => (self, Throw e, w)
                  end
              end
        | Some default =>
            let self := mkMetric (Some (dict_set name default d, df))
                          (attrs self) in
            if dict_has name df then (self, Throw (Exn AssertionError), w)
            else
              let '(self, r) := setattr self name default in
              (self, r, w)
        end
    end.

(** The two loops of [reset]; each stops at the first exception, with the
    attributes set so far. *)
Fixpoint reset_defaults (d : list (string * V)) (self : Metric)
  : Metric * outcome unit :=
  match d with
  | [] => (self, Return tt)
  | (k, v) :: d =>
      match setattr self k v with
      | (self, Return _) => reset_defaults d self
      | (self, Throw e) => (self, Throw e)
      end
  end.

Fixpoint reset_factories (df : list (string * option (W -> outcome V * W)))
    (self : Metric) (w : W) : Metric * outcome unit * W :=
  match df with
  | [] => (self, Return tt, w)
  | (k, None) :: _ => (self, Throw TypeError, w)
  | (k, Some v) :: df =>
      match v w with
      | (Return value, w) =>
          match setattr self k value with
          | (self, Return _) => reset_factories df self w
          | (self, Throw e) => (self, Throw e, w)
          end
      | (Throw e, w) => (self, Throw e, w)
      end
  end.

Definition reset (self : Metric) (w : W) : option (Metric * outcome unit * W) :=
  match tables self with
  | None => Some (self, Throw (Exn AttributeError), w)
  | Some (d, df) =>
      if existsb reserved (d.*1 ++ df.*1) then None
      else
        Some
          match reset_defaults d self with
          | (self, Return _) => reset_factories df self w
          | (self, Throw e) => (self, Throw e, w)
          end
  end.

End Metric.

(** *** MeanMetric as an instance of Metric *)
Section MeanMetricObject.

Context {num : Type}.
Variable float_zero : num.

(** The values of the attributes of a [MeanMetric]. *)
Inductive mean_value : Type :=
  | PNum (x : num)
  | PInt (z : Z).

(** [MeanMetric.__init__] on a new object. *)
Definition MeanMetric_new : option (@Metric mean_value unit * outcome unit * unit) :=
  let self := Metric_init (mkMetric None ∅) in
  '(self, r, w) ← add_state self "state" (Some (PNum float_zero)) None tt;
  match r with
  | Return _ => add_state self "count" (Some (PInt 0)) None w
  | Throw e => Some (self, Throw e, w)
  end.

(** The state and the count that the attributes of an object hold. *)
Definition as_MeanMetric (self : @Metric mean_value unit) : option (@MeanMetric num) :=
  match attrs self !! "state", attrs self !! "count" with
  | Some (PNum s), Some (PInt c) => Some (mkMeanMetric s c)
  | _, _ => None
  end.

(** [update] on the object: it assigns the two attributes. *)
Definition set_MeanMetric (m : @MeanMetric num) (self : @Metric mean_value unit)
  : @Metric mean_value unit :=
  set_state "count" (PInt (count m)) (set_state "state" (PNum (state m)) self).

End MeanMetricObject.

(** ** InferStats *)
Section InferStats.

(** The clock readings [T], their difference as a number, the test for
    zero and the true division of an int by a number. *)
Context {T num : Type}.
Variable elapsed : T -> T -> num.
Variable is_zero : num -> bool.
Variable int_truediv : Z -> num -> num.

(** What [update] reads of an output: [output.id] and [output.usage]. *)
Record infer_output : Type := mkOutput {
  output_id : string;
  prompt_tokens : Z;
  completion_tokens : Z
}.

Record InferStats : Type := mkInferStats {
  start_runtime : T;
  num_prompt_tokens : gmap string Z;
  num_generated_tokens : gmap string Z
}.

(** [__init__]: the three factories, at clock reading [now]. *)
Definition InferStats_init (now : T) : InferStats := mkInferStats now ∅ ∅.

Definition infer_update (self : InferStats) (output : infer_output) : InferStats :=
  mkInferStats (start_runtime self)
    (<[output_id output := prompt_tokens output]> (num_prompt_tokens self))
    (<[output_id output := completion_tokens output]> (num_generated_tokens self)).

(** [sum(d.values())] of integers. *)
Definition sum_values (d : gmap string Z) : Z :=
  map_fold (fun _ v acc => (acc + v)%Z) 0%Z d.

(** The dict that [compute] returns. *)
Record infer_report : Type := mkReport {
  report_num_prompt_tokens : Z;
  report_num_generated_tokens : Z;
  report_num_samples : Z;
  report_runtime : num;
  report_samples_per_s : num;
  report_tokens_per_s : num
}.

(** [n / runtime] *)
Definition int_div (n : Z) (runtime : num) : result num :=
  if is_zero runtime then Raise ZeroDivisionError else Ok (int_truediv n runtime).

(** [compute] at clock reading [now]. *)
Definition infer_compute (self : InferStats) (now : T) : result infer_report :=
  let runtime := elapsed now (start_runtime self) in
  let num_samples := Z.of_nat (size (num_generated_tokens self)) in
  let num_generated_tokens := sum_values (num_generated_tokens self) in
  samples_per_s ← int_div num_samples runtime;
  tokens_per_s ← int_div num_generated_tokens runtime;
  Ok (mkReport (sum_values (num_prompt_tokens self)) num_generated_tokens
        num_samples runtime samples_per_s tokens_per_s).

End InferStats.

(** * Properties *)

(** ** Strings *)

(** A string without the first character of [sub] does not contain [sub]. *)
Lemma contains_needs_head (c : ascii) (sub s : string) :
  has_char c s = false -> PyStr.contains (String c sub) s = false.
Proof.
  induction s as [| d s IH]; simpl; [reflexivity |].
  intros H. apply orb_false_iff in H as [Hd Hs].
  apply bool_decide_eq_false in Hd.
  rewrite (IH Hs), orb_false_r.
  destruct (ascii_dec c d) as [e | n]; [congruence | reflexivity].
Qed.

Lemma replace_system_no_brace (s : string) (skip : nat) :
  braces_in_system_from skip s = true ->
  has_char "{" (PyStr.replace_from SYSTEM "" skip s) = false.
Proof.
  revert skip. induction s as [| c s IH]; intros skip; [reflexivity |].
  cbn [braces_in_system_from PyStr.replace_from].
  destruct skip as [| k]; [| apply IH].
  destruct (String.prefix SYSTEM (String c s)).
  - intros H. cbn [append]. apply IH, H.
  - intros H. apply andb_true_iff in H as [Hc Hs].
    cbn [has_char]. rewrite (IH _ Hs), orb_false_r.
    apply negb_true_iff in Hc. exact Hc.
Qed.

Lemma replace_system_clean (s : string) :
  braces_in_system s = true ->
  PyStr.contains SYSTEM (PyStr.replace SYSTEM "" s) = false.
Proof.
  intros H. apply contains_needs_head, replace_system_no_brace, H.
Qed.

(** ** [mapM] in [result] *)

Lemma mapM_result_cons {A B} (f : A -> result B) (x : A) (l : list A) :
  mapM f (x :: l) = y ← f x; k ← mapM f l; Ok (y :: k).
Proof. reflexivity. Qed.

Lemma mapM_result_Forall2 {A B} (f : A -> result B) (l : list A) (k : list B) :
  mapM f l = Ok k <-> Forall2 (fun x y => f x = Ok y) l k.
Proof.
  revert k. induction l as [| x l IH]; intros k.
  - split; [intros [= <-]; constructor | intros H; inversion H; reflexivity].
  - rewrite mapM_result_cons. split.
    + destruct (f x) as [y |] eqn:Hx; [| discriminate]. cbn.
      destruct (mapM f l) as [k' |] eqn:Hl; [| discriminate]. cbn.
      intros [= <-]. constructor; [exact Hx | apply IH; reflexivity].
    + intros H. inversion H as [| ? y ? k' Hx Hl]; subst.
      rewrite Hx. cbn. apply IH in Hl. rewrite Hl. reflexivity.
Qed.

(** ** Construction *)

#[local] Arguments _has_system : simpl never.
#[local] Arguments _replace_system : simpl never.
#[local] Arguments check_system : simpl never.

(** What [__post_init__] returns when it returns. *)
Lemma post_init_inv (f : Fields) (m : TemplateMeta) :
  __post_init__ f = Ok m ->
  exists (prefix' : Prompt) (default_system' : string),
    (if _has_system (prefix f)
     then system_prefix f = None /\ _replace_system (prefix f) = Ok prefix'
     else prefix' = prefix f) /\
    check_system (post_init_support_system f) (default_system f)
      = Ok default_system' /\
    m = mkTemplateMeta
          (mkFields (template_type f) prefix' (post_init_prompt f) (chat_sep f)
             (suffix f) (template_cls f)
             (if is_None (tool_prompt f) then Some (post_init_prompt f)
              else tool_prompt f)
             (post_init_system_prefix f) (auto_add_bos f)
             (Some default_system') (stop_words f) (placeholder_tokens f)
             (skip_prompt f) (default_tools_prompt f) (support_stream f))
          (_has_system (prompt f))
          (if _has_system (prompt f) then Some (post_init_prompt f) else None)
          (post_init_support_system f)
          (negb (is_None (chat_sep f))).
Proof.
  unfold __post_init__, post_init_support_system, post_init_system_prefix,
    post_init_prompt.
  destruct f as [tt pre pro cs suf cls tp sp bos ds sw pt skp dtp ss]. cbn.
  destruct (_has_system pre) eqn:Hpre; cbn.
  - destruct sp as [sp |]; cbn; [discriminate |].
    destruct (_replace_system pre) as [pre' |] eqn:Hrep; cbn; [| discriminate].
    destruct (_has_system pro) eqn:Hpro; cbn;
      (destruct (check_system _ ds) as [ds' |] eqn:Hds; cbn; [| discriminate]);
      destruct tp; cbn; intros [= <-]; exists pre', ds'; auto.
  - destruct (_has_system pro) eqn:Hpro; cbn;
      (destruct (check_system _ ds) as [ds' |] eqn:Hds; cbn; [| discriminate]);
      destruct tp; cbn; intros [= <-]; exists pre, ds'; auto.
Qed.

Lemma replace_system_text (p : Prompt) :
  Forall (fun c => match c with CStr _ => True | CList _ => False end) p ->
  exists p', _replace_system p = Ok p'.
Proof.
  unfold _replace_system. induction 1 as [| c p Hc _ [q IH]].
  - exists []. reflexivity.
  - destruct c as [s |]; [| contradiction].
    exists (CStr (PyStr.replace SYSTEM "" s) :: q).
    rewrite mapM_result_cons. cbn. rewrite IH. reflexivity.
Qed.

(** C1 as stated fails: the placeholder is declared in [prefix] and in
    [prompt], and the construction returns an instance. *)
Lemma C1_double_declaration_accepted :
  declared_twice both_prefix_and_prompt = true /\
  ~ (exists e, TemplateMeta_new both_prefix_and_prompt = Raise e).
Proof.
  split; [reflexivity |]. intros [e H]. vm_compute in H. discriminate.
Qed.

(** C1, amended: the construction raises (an [AssertionError]) whenever
    [system_prefix] is set while [prefix] embeds the system placeholder; a
    placeholder in [prompt] is not rejected: when [prefix] does not embed
    the placeholder, or embeds it in text elements with [system_prefix]
    unset, a construction whose [prompt] embeds the placeholder succeeds. *)
Theorem C1_prefix_and_system_prefix_rejected (f : Fields) :
  (_has_system (prefix f) = true -> system_prefix f <> None ->
   TemplateMeta_new f = Raise AssertionError) /\
  (_has_system (prompt f) = true ->
   _has_system (prefix f) = false \/
   (system_prefix f = None /\
    Forall (fun c => match c with CStr _ => True | CList _ => False end) (prefix f)) ->
   exists m, TemplateMeta_new f = Ok m).
Proof.
  unfold TemplateMeta_new, __post_init__. split.
  - intros Hpre Hsp. rewrite Hpre.
    destruct (system_prefix f); [reflexivity | congruence].
  - intros Hpro [Hpre | [Hsp Htext]].
    + rewrite Hpre. cbn. rewrite Hpro. cbn.
      rewrite andb_false_r.
      destruct f as [tt pre pro cs suf cls tp sp bos ds sw pt skp dtp ss].
      unfold check_system; cbn. destruct ds as [[|] |]; cbn; eauto.
    + destruct (replace_system_text (prefix f) Htext) as [q Hq].
      destruct (_has_system (prefix f)); rewrite ?Hsp; cbn.
      * rewrite Hq. cbn. rewrite Hpro. cbn.
        unfold check_system. destruct (default_system f) as [[|] |]; cbn; eauto.
      * rewrite Hpro. cbn. rewrite andb_false_r.
        unfold check_system. destruct (default_system f) as [[|] |]; cbn; eauto.
Qed.

Lemma C1_prefix_and_system_prefix_rejected_witness :
  TemplateMeta_new (set_system_prefix (Some [CStr "{{SYSTEM}}"]) both_prefix_and_prompt)
    = Raise AssertionError /\
  exists m, TemplateMeta_new both_prefix_and_prompt = Ok m.
Proof.
  split.
  - apply (proj1 (C1_prefix_and_system_prefix_rejected _)); [reflexivity | discriminate].
  - apply (proj2 (C1_prefix_and_system_prefix_rejected both_prefix_and_prompt));
      [reflexivity |].
    right. split; [reflexivity |]. repeat constructor.
Defined.

(** C3 as stated fails for [is_post_system]: it is not true only when the
    placeholder is in [prompt] rather than in [prefix]. With the placeholder
    in both, the construction returns an instance whose [is_post_system] is
    true. *)
Lemma C3_post_system_with_prefix_placeholder :
  exists m, TemplateMeta_new both_prefix_and_prompt = Ok m /\
    ~ (is_post_system m = true <->
         _has_system (prompt both_prefix_and_prompt) = true /\
         _has_system (prefix both_prefix_and_prompt) = false).
Proof.
  eexists. split; [reflexivity |]. intros [H _].
  destruct (H eq_refl) as [_ Hprefix]. vm_compute in Hprefix. discriminate.
Qed.

(** C3, amended: the derived flags of a constructed instance are functions
    of the fields alone: [support_system] holds iff a system prefix exists
    or the prompt embeds the placeholder, [support_multi_round] iff
    [chat_sep] is set, and [is_post_system] iff the given prompt embeds the
    placeholder, whether or not the prefix embeds it as well. *)
Theorem C3_derived_flags (f : Fields) (m : TemplateMeta) :
  TemplateMeta_new f = Ok m ->
  (support_system m = true <->
     system_prefix m <> None \/ _has_system (prompt f) = true) /\
  (support_multi_round m = true <-> chat_sep m <> None) /\
  (is_post_system m = true <-> _has_system (prompt f) = true) /\
  support_system m = post_init_support_system f /\
  support_multi_round m = negb (is_None (chat_sep f)) /\
  is_post_system m = _has_system (prompt f).
Proof.
  intros H. apply post_init_inv in H as (pre & ds & _ & _ & ->). cbn.
  repeat split; try tauto.
  - unfold post_init_support_system.
    destruct (post_init_system_prefix f), (_has_system (prompt f)); cbn;
      intros; (discriminate || (left; discriminate) || (right; reflexivity)).
  - unfold post_init_support_system.
    destruct (post_init_system_prefix f), (_has_system (prompt f)); cbn;
      intros [? | ?]; congruence.
  - destruct (chat_sep f); cbn; congruence.
  - destruct (chat_sep f); cbn; congruence.
Qed.

Lemma C3_derived_flags_witness :
  exists m, TemplateMeta_new both_prefix_and_prompt = Ok m /\
    support_system m = true /\ support_multi_round m = false /\
    is_post_system m = true.
Proof.
  eexists. split; [reflexivity |].
  destruct (C3_derived_flags both_prefix_and_prompt _ eq_refl)
    as (_ & _ & _ & H1 & H2 & H3).
  rewrite H1, H2, H3. repeat split.
Defined.

(** C7: an instance constructed without a [tool_prompt] has its (final)
    [prompt] as [tool_prompt]. *)
Theorem C7_tool_prompt_defaults_to_prompt (f : Fields) (m : TemplateMeta) :
  tool_prompt f = None ->
  TemplateMeta_new f = Ok m ->
  tool_prompt m = Some (prompt m).
Proof.
  intros Htp H. apply post_init_inv in H as (pre & ds & _ & _ & ->). cbn.
  rewrite Htp. reflexivity.
Qed.

Lemma C7_tool_prompt_defaults_to_prompt_witness :
  exists m, TemplateMeta_new both_prefix_and_prompt = Ok m /\
    tool_prompt m = Some (prompt m) /\ prompt m = [CStr "{{QUERY}}"].
Proof.
  eexists. split; [reflexivity |]. split; [| reflexivity].
  apply (C7_tool_prompt_defaults_to_prompt both_prefix_and_prompt);
    reflexivity.
Defined.

Lemma check_system_inv (support : bool) (system : option string) (s : string) :
  check_system support system = Ok s ->
  s = default "" system /\ (s <> "" -> support = true).
Proof.
  unfold check_system.
  destruct system as [[| c t] |]; cbn; try (intros [= <-]; split; congruence).
  destruct support; cbn; [intros [= <-]; split; congruence | discriminate].
Qed.

(** C8: [None] as [default_system] becomes the empty string; a non-empty
    [default_system] on fields that give no system support makes the
    construction raise; so a constructed instance holds a string as
    [default_system], and a non-empty one only with [support_system]. *)
Theorem C8_default_system_checked (f : Fields) :
  (forall m, TemplateMeta_new f = Ok m -> default_system f = None ->
     default_system m = Some "") /\
  (forall s, default_system f = Some s -> s <> "" ->
     _has_system (prefix f) = false -> system_prefix f = None ->
     _has_system (prompt f) = false ->
     TemplateMeta_new f = Raise AssertionError) /\
  (forall m, TemplateMeta_new f = Ok m ->
     exists s, default_system m = Some s /\
       (s <> "" -> support_system m = true)).
Proof.
  split; [| split].
  - intros m H Hds. apply post_init_inv in H as (pre & ds & _ & Hcs & ->). cbn.
    apply check_system_inv in Hcs as [-> _]. rewrite Hds. reflexivity.
  - intros s Hds Hs Hpre Hsp Hpro.
    unfold TemplateMeta_new, __post_init__.
    rewrite Hpre. cbn. rewrite Hpro, Hsp, Hds. cbn.
    unfold check_system. destruct s; [congruence | reflexivity].
  - intros m H. apply post_init_inv in H as (pre & ds & _ & Hcs & ->). cbn.
    exists ds. split; [reflexivity |]. apply check_system_inv in Hcs as [_ Hs].
    exact Hs.
Qed.

Lemma C8_default_system_checked_witness :
  (exists m, TemplateMeta_new no_system_fields = Ok m /\ default_system m = Some "") /\
  TemplateMeta_new (set_default_system (Some "You are helpful.") no_system_fields)
    = Raise AssertionError.
Proof.
  split.
  - eexists. split; [reflexivity |].
    apply (proj1 (C8_default_system_checked no_system_fields)); reflexivity.
  - apply (proj1 (proj2 (C8_default_system_checked _)) "You are helpful.");
      [reflexivity | discriminate | reflexivity | reflexivity | reflexivity].
Defined.

(** ** The placeholder after construction *)

Lemma has_system_filter (p : Prompt) :
  _has_system (filter (fun context => negb (system_in context)) p) = false.
Proof.
  unfold _has_system. induction p as [| c p IH]; [reflexivity |].
  rewrite filter_cons. destruct (decide _) as [Hc | Hc]; [| exact IH].
  cbn. rewrite IH, orb_false_r. apply negb_prop_elim in Hc.
  destruct (system_in c); [contradiction Hc; exact I | reflexivity].
Qed.

Lemma post_init_prompt_clean (f : Fields) :
  _has_system (post_init_prompt f) = false.
Proof.
  unfold post_init_prompt. destruct (_has_system (prompt f)) eqn:H;
    [apply has_system_filter | exact H].
Qed.

Lemma replace_system_tidy (p q : Prompt) :
  _replace_system p = Ok q ->
  forallb tidy p = true ->
  _has_system q = false.
Proof.
  unfold _replace_system, _has_system. intros H. apply mapM_result_Forall2 in H.
  induction H as [| c d p q Hcd _ IH]; [reflexivity |].
  cbn. intros Ht. apply andb_true_iff in Ht as [Hc Hp].
  rewrite (IH Hp), orb_false_r.
  destruct c as [s |]; [| discriminate]. injection Hcd as <-.
  cbn. apply replace_system_clean, Hc.
Qed.

(** C9 as stated fails: the construction succeeds and the prefix of the
    instance still contains the placeholder. *)
Lemma C9_prefix_keeps_spliced_placeholder :
  exists m, TemplateMeta_new nested_placeholder = Ok m /\
    _has_system (prefix m) = true.
Proof. eexists. split; reflexivity. Qed.

(** C9, amended: in a constructed instance no element of [prompt] contains
    the placeholder; a prefix that embeds it becomes [system_prefix] and
    [prefix] is that prefix with the occurrences deleted in one pass from the
    left; no element of [prefix] contains the placeholder when, in the text
    given, ["{"] occurs only inside placeholder occurrences. The generation
    variant is always constructed, with no placeholder in its [prefix] and
    [prompt]. *)
Theorem C9_placeholder_removed (f : Fields) (m : TemplateMeta) :
  TemplateMeta_new f = Ok m ->
  _has_system (prompt m) = false /\
  (_has_system (prefix f) = true ->
     system_prefix m = Some (prefix f) /\
     _replace_system (prefix f) = Ok (prefix m)) /\
  (_has_system (prefix f) = false -> prefix m = prefix f) /\
  (forallb tidy (prefix f) = true -> _has_system (prefix m) = false) /\
  (exists g, to_generation_template_meta m = Ok g /\
     _has_system (prefix g) = false /\ _has_system (prompt g) = false).
Proof.
  intros H. apply post_init_inv in H as (pre & ds & Hpre & _ & ->). cbn.
  split; [apply post_init_prompt_clean |].
  unfold post_init_system_prefix.
  destruct (_has_system (prefix f)) eqn:Hhas.
  - destruct Hpre as [_ Hrep]. repeat split; try congruence.
    + intros Ht. eapply replace_system_tidy; eauto.
    + eexists. split; [reflexivity |]. split; reflexivity.
  - subst pre. repeat split; try congruence.
    eexists. split; [reflexivity |]. split; reflexivity.
Qed.

Lemma C9_placeholder_removed_witness :
  exists m, TemplateMeta_new chatml_fields = Ok m /\
    _has_system (prompt m) = false /\ _has_system (prefix m) = false /\
    system_prefix m = Some (prefix chatml_fields).
Proof.
  eexists. split; [reflexivity |].
  destruct (C9_placeholder_removed chatml_fields _ eq_refl)
    as (H1 & H2 & _ & H4 & _).
  split; [exact H1 |]. split; [apply H4; reflexivity |].
  apply H2. reflexivity.
Defined.

(** ** Token resolution *)

Lemma sub_v_to_id_resolved (tokenizer : PreTrainedTokenizerBase) (t t' : token) :
  sub_v_to_id tokenizer t = Ok t' ->
  symbolic t' = false /\ sub_v_to_id tokenizer t' = Ok t' /\
  match t with
  | TStr name => exists i, tokenizer !! name = Some i /\ t' = TInt i
  | TInt _ => t' = t
  end.
Proof.
  destruct t as [i | name]; cbn.
  - intros [= <-]. auto.
  - unfold getattr. destruct (tokenizer !! name) as [i |]; cbn; [| discriminate].
    intros [= <-]. eauto.
Qed.

Lemma mapM_fixed {A} (f : A -> result A) (l k : list A) :
  (forall x y, f x = Ok y -> f y = Ok y) ->
  mapM f l = Ok k -> mapM f k = Ok k.
Proof.
  intros Hf H. apply mapM_result_Forall2 in H. apply mapM_result_Forall2.
  induction H as [| x y l k Hxy _ IH]; constructor; eauto.
Qed.

Lemma v_to_id_fixed (tokenizer : PreTrainedTokenizerBase) (v v' : context) :
  v_to_id tokenizer v = Ok v' -> v_to_id tokenizer v' = Ok v'.
Proof.
  destruct v as [s | l]; cbn; [intros [= <-]; reflexivity |].
  destruct (mapM (sub_v_to_id tokenizer) l) as [l' |] eqn:Hl; cbn; [| discriminate].
  intros [= <-]. cbn.
  rewrite (mapM_fixed _ l l'); [reflexivity | | exact Hl].
  intros x y Hxy. apply sub_v_to_id_resolved in Hxy. tauto.
Qed.

(** The elements of a resolved list: text as it was, token lists without
    names. *)
Lemma v_to_id_not_symbolic (tokenizer : PreTrainedTokenizerBase) (v v' : context) :
  v_to_id tokenizer v = Ok v' -> context_symbolic v' = false.
Proof.
  destruct v as [s | l]; cbn; [intros [= <-]; reflexivity |].
  destruct (mapM (sub_v_to_id tokenizer) l) as [l' |] eqn:Hl; cbn; [| discriminate].
  intros [= <-]. cbn. apply mapM_result_Forall2 in Hl.
  induction Hl as [| x y l l' Hxy _ IH]; [reflexivity |].
  cbn. apply sub_v_to_id_resolved in Hxy as [-> _]. exact IH.
Qed.

Lemma _token_attr_to_id_fixed (tokenizer : PreTrainedTokenizerBase)
    (value value' : option Prompt) :
  _token_attr_to_id tokenizer value = Ok value' ->
  _token_attr_to_id tokenizer value' = Ok value'.
Proof.
  destruct value as [p |]; cbn; [| intros [= <-]; reflexivity].
  destruct (mapM (v_to_id tokenizer) p) as [p' |] eqn:Hp; cbn; [| discriminate].
  intros [= <-]. cbn.
  rewrite (mapM_fixed _ p p'); [reflexivity | apply v_to_id_fixed | exact Hp].
Qed.

Lemma _token_attr_to_id_Some (tokenizer : PreTrainedTokenizerBase)
    (p : Prompt) (value' : option Prompt) :
  _token_attr_to_id tokenizer (Some p) = Ok value' ->
  exists p', value' = Some p' /\ mapM (v_to_id tokenizer) p = Ok p'.
Proof.
  cbn. destruct (mapM (v_to_id tokenizer) p) as [p' |]; cbn; [| discriminate].
  intros [= <-]. eauto.
Qed.

Lemma token_attr_to_id_ok (tokenizer : PreTrainedTokenizerBase)
    (self self' : TemplateMeta) :
  token_attr_to_id tokenizer self = (self', Ok tt) <->
  exists prefix' prompt' chat_sep' suffix' system_prefix',
    mapM (v_to_id tokenizer) (prefix self) = Ok prefix' /\
    mapM (v_to_id tokenizer) (prompt self) = Ok prompt' /\
    _token_attr_to_id tokenizer (chat_sep self) = Ok chat_sep' /\
    mapM (v_to_id tokenizer) (suffix self) = Ok suffix' /\
    _token_attr_to_id tokenizer (system_prefix self) = Ok system_prefix' /\
    self' = resolved_instance self prefix' prompt' chat_sep' suffix' system_prefix'.
Proof.
  destruct self as [[tt pre pro cs suf cls tp sp bos ds sw pt skp dtp ss] ips spr sus smr].
  unfold token_attr_to_id, resolved_instance. cbn -[_token_attr_to_id]. split.
  - destruct (_token_attr_to_id tokenizer (Some pre)) as [v1 |] eqn:H1; [| discriminate].
    apply _token_attr_to_id_Some in H1 as (pre' & -> & H1). cbn -[_token_attr_to_id].
    destruct (_token_attr_to_id tokenizer (Some pro)) as [v2 |] eqn:H2; [| discriminate].
    apply _token_attr_to_id_Some in H2 as (pro' & -> & H2). cbn -[_token_attr_to_id].
    destruct (_token_attr_to_id tokenizer cs) as [cs' |] eqn:H3; [| discriminate].
    cbn -[_token_attr_to_id].
    destruct (_token_attr_to_id tokenizer (Some suf)) as [v4 |] eqn:H4; [| discriminate].
    apply _token_attr_to_id_Some in H4 as (suf' & -> & H4). cbn -[_token_attr_to_id].
    destruct (_token_attr_to_id tokenizer sp) as [sp' |] eqn:H5; [| discriminate].
    cbn. intros [= <-]. exists pre', pro', cs', suf', sp'.
    repeat split; assumption || reflexivity.
  - intros (pre' & pro' & cs' & suf' & sp' & H1 & H2 & H3 & H4 & H5 & ->).
    cbn. rewrite H1. cbn. rewrite H2. cbn -[_token_attr_to_id].
    rewrite H3. cbn. rewrite H4. cbn -[_token_attr_to_id]. rewrite H5.
    reflexivity.
Qed.

Lemma mapM_v_to_id_not_symbolic (tokenizer : PreTrainedTokenizerBase)
    (p p' : Prompt) :
  mapM (v_to_id tokenizer) p = Ok p' -> prompt_symbolic p' = false.
Proof.
  intros H. apply mapM_result_Forall2 in H. unfold prompt_symbolic.
  induction H as [| v v' p p' Hv _ IH]; [reflexivity |].
  cbn. rewrite (v_to_id_not_symbolic _ _ _ Hv). exact IH.
Qed.

(** After a resolution that returns, the five segment fields of the loop
    hold no token name: each element is the [v_to_id] of the element given
    ([token_attr_to_id_ok]), text unchanged and names replaced by ids. *)
Lemma token_attr_to_id_resolves (tokenizer : PreTrainedTokenizerBase)
    (self self' : TemplateMeta) :
  token_attr_to_id tokenizer self = (self', Ok tt) ->
  prompt_symbolic (prefix self') = false /\
  prompt_symbolic (prompt self') = false /\
  from_option prompt_symbolic false (chat_sep self') = false /\
  prompt_symbolic (suffix self') = false /\
  from_option prompt_symbolic false (system_prefix self') = false.
Proof.
  intros H. apply token_attr_to_id_ok in H
    as (pre' & pro' & cs' & suf' & sp' & H1 & H2 & H3 & H4 & H5 & ->). cbn.
  split_and!; eauto using mapM_v_to_id_not_symbolic.
  - destruct (chat_sep self) as [p |]; cbn in H3; [| injection H3 as <-; reflexivity].
    destruct (mapM (v_to_id tokenizer) p) eqn:Hp; cbn in H3; [| discriminate].
    injection H3 as <-. cbn. eauto using mapM_v_to_id_not_symbolic.
  - destruct (system_prefix self) as [p |]; cbn in H5; [| injection H5 as <-; reflexivity].
    destruct (mapM (v_to_id tokenizer) p) eqn:Hp; cbn in H5; [| discriminate].
    injection H5 as <-. cbn. eauto using mapM_v_to_id_not_symbolic.
Qed.

(** Resolution never writes [tool_prompt]. *)
Lemma token_attr_to_id_keys_tool_prompt (tokenizer : PreTrainedTokenizerBase)
    (keys : list key) (self : TemplateMeta) :
  K_tool_prompt ∉ keys ->
  tool_prompt (token_attr_to_id_keys tokenizer keys self).1 = tool_prompt self.
Proof.
  revert self. induction keys as [| k keys IH]; intros self Hk; [reflexivity |].
  apply not_elem_of_cons in Hk as [Hk Hkeys]. cbn -[_token_attr_to_id].
  destruct (_token_attr_to_id tokenizer (getattr_key self k)) as [v |];
    [| reflexivity].
  rewrite (IH _ Hkeys). destruct k, v; try reflexivity; congruence.
Qed.

(** C2, where the code departs from it: on a format constructed without a
    [tool_prompt], resolution replaces [bos_token_id] in [prompt] and
    leaves it as a name in [tool_prompt], which the six-field resolution of
    the specification would resolve as well. *)
Theorem C2_tool_prompt_left_symbolic :
  TemplateMeta_new bos_prompt_fields = Ok bos_prompt_meta /\
  exists m' m'',
    token_attr_to_id small_tokenizer bos_prompt_meta = (m', Ok tt) /\
    prompt m' = [CList [TInt 1]; CStr "{{QUERY}}"] /\
    tool_prompt m' = Some [CList [TStr "bos_token_id"]; CStr "{{QUERY}}"] /\
    resolve_six_fields small_tokenizer bos_prompt_meta = (m'', Ok tt) /\
    tool_prompt m'' = Some [CList [TInt 1]; CStr "{{QUERY}}"].
Proof.
  split; [vm_compute; reflexivity |].
  exists (token_attr_to_id small_tokenizer bos_prompt_meta).1,
         (resolve_six_fields small_tokenizer bos_prompt_meta).1.
  split_and!; vm_compute; reflexivity.
Qed.

(** C4: resolving an instance that resolution has returned, with the same
    tokenizer, returns it as it is. *)
Theorem C4_resolution_idempotent (tokenizer : PreTrainedTokenizerBase)
    (self self' : TemplateMeta) :
  token_attr_to_id tokenizer self = (self', Ok tt) ->
  token_attr_to_id tokenizer self' = (self', Ok tt).
Proof.
  intros H. apply token_attr_to_id_ok in H
    as (pre' & pro' & cs' & suf' & sp' & H1 & H2 & H3 & H4 & H5 & ->).
  apply token_attr_to_id_ok. exists pre', pro', cs', suf', sp'. cbn.
  repeat split;
    eauto using mapM_fixed, v_to_id_fixed, _token_attr_to_id_fixed.
Qed.

Lemma C4_resolution_idempotent_witness :
  let m' := (token_attr_to_id small_tokenizer bos_prompt_meta).1 in
  token_attr_to_id small_tokenizer bos_prompt_meta = (m', Ok tt) /\
  token_attr_to_id small_tokenizer m' = (m', Ok tt).
Proof.
  intros m'. split; [vm_compute; reflexivity |].
  apply (C4_resolution_idempotent small_tokenizer bos_prompt_meta).
  vm_compute. reflexivity.
Defined.

(** ** The registry *)

Section RegistryProps.

Context {Any : Type}.
Implicit Types (kwargs : gmap string Any) (reg : gmap string (@template_info Any)).

(** C6: registering a template type that is present, without [exist_ok],
    raises and leaves the registry as it was; with [exist_ok], or for a
    template type that is absent, the instance is stored under its
    template type and the other entries stay. *)
Theorem C6_register_template (tm : TemplateMeta) (exist_ok : bool) kwargs reg :
  (is_Some (reg !! template_type tm) -> exist_ok = false ->
     register_template tm exist_ok kwargs reg = (reg, Raise ValueError)) /\
  (exist_ok = true \/ reg !! template_type tm = None ->
     exists reg',
       register_template tm exist_ok kwargs reg = (reg', Ok tt) /\
       reg' !! template_type tm = Some (mkInfo tm kwargs) /\
       forall other, other <> template_type tm -> reg' !! other = reg !! other).
Proof.
  unfold register_template. split.
  - intros Hin ->. cbn. rewrite bool_decide_eq_true_2 by exact Hin. reflexivity.
  - intros Hok.
    assert (negb exist_ok &&
            bool_decide (is_Some (reg !! template_type tm)) = false) as ->.
    { destruct Hok as [-> | Hnone]; [reflexivity |].
      rewrite Hnone, bool_decide_eq_false_2, andb_false_r; [reflexivity |].
      intros [x Hx]. discriminate. }
    eexists. split; [reflexivity |]. split.
    + apply lookup_insert_eq.
    + intros other Hne. apply lookup_insert_ne. congruence.
Qed.

End RegistryProps.

Lemma C6_register_template_witness :
  let reg : gmap string (@template_info unit) :=
    {[ "plain" := mkInfo bos_prompt_meta ∅ ]} in
  register_template no_system_meta false ∅ reg = (reg, Raise ValueError) /\
  (exists reg', register_template no_system_meta true ∅ reg = (reg', Ok tt) /\
     reg' !! "plain" = Some (mkInfo no_system_meta ∅)) /\
  (exists reg', register_template no_system_meta false ∅ (∅ : gmap string (@template_info unit))
                  = (reg', Ok tt) /\
     reg' !! "plain" = Some (mkInfo no_system_meta ∅)).
Proof.
  intros reg. split; [| split].
  - apply (proj1 (C6_register_template no_system_meta false ∅ reg));
      [| reflexivity].
    exists (mkInfo bos_prompt_meta ∅). vm_compute. reflexivity.
  - destruct (proj2 (C6_register_template no_system_meta true ∅ reg))
      as (reg' & H1 & H2 & _); [left; reflexivity |].
    exists reg'. split; assumption.
  - destruct (proj2 (C6_register_template no_system_meta false ∅
                       (∅ : gmap string (@template_info unit))))
      as (reg' & H1 & H2 & _); [right; apply lookup_empty |].
    exists reg'. split; assumption.
Defined.

(** ** MeanMetric *)

Section MeanMetricProps.

Context {num R : Type}.
Variable add : num -> num -> num.
Variable int_zero : num.
Variable float_zero : num.
Variable truediv : num -> Z -> num.

(** Exact values, as the rationals are: the exact sum [radd] is associative
    with the neutral [rzero], the two zeros of the program have the value
    zero, and [rdiv] is the exact quotient by a count. Nothing is assumed
    of the arithmetic [add] and [truediv] of the program. *)
Variable val : num -> R.
Variable radd : R -> R -> R.
Variable rzero : R.
Variable rdiv : R -> Z -> R.
Hypothesis radd_assoc : forall x y z, radd x (radd y z) = radd (radd x y) z.
Hypothesis radd_zero_l : forall x, radd rzero x = x.
Hypothesis radd_zero_r : forall x, radd x rzero = x.
Hypothesis val_int_zero : val int_zero = rzero.
Hypothesis val_float_zero : val float_zero = rzero.

Lemma updates_closed (args : list update_arg) (self : MeanMetric) :
  state (fold_left (update add int_zero) args self)
    = fold_left add (map (contribution add int_zero) args) (state self) /\
  count (fold_left (update add int_zero) args self)
    = (count self + Z.of_nat (List.length (items_seen args)))%Z.
Proof.
  revert self. induction args as [| arg args IH]; intros self.
  - cbn. split; [reflexivity | lia].
  - cbn [fold_left map]. destruct (IH (update add int_zero self arg)) as [-> ->].
    unfold items_seen. cbn [map concat]. rewrite length_app.
    destruct arg as [x | xs]; cbn; split; (reflexivity || lia).
Qed.

Lemma rsum_app (xs ys : list R) :
  rsum radd rzero (xs ++ ys) = radd (rsum radd rzero xs) (rsum radd rzero ys).
Proof using radd_assoc radd_zero_l.
  induction xs as [| x xs IH]; cbn.
  - symmetry. apply radd_zero_l.
  - fold (rsum radd rzero (xs ++ ys)) (rsum radd rzero xs).
    rewrite IH. apply radd_assoc.
Qed.

Lemma exact_sum_value (xs : list num) (a : num) :
  exact_sum add val radd xs a ->
  val (fold_left add xs a) = radd (val a) (rsum radd rzero (map val xs)).
Proof using radd_assoc radd_zero_r.
  revert a. induction xs as [| x xs IH]; intros a; cbn.
  - intros _. symmetry. apply radd_zero_r.
  - intros [Hx Hxs]. rewrite (IH _ Hxs), Hx. symmetry. apply radd_assoc.
Qed.

Lemma exact_update_value (self : MeanMetric) (arg : update_arg) :
  exact_update add int_zero val radd self arg ->
  val (state (update add int_zero self arg))
    = radd (val (state self)) (rsum radd rzero (map val (items_of arg))).
Proof using radd_assoc radd_zero_l radd_zero_r val_int_zero.
  destruct arg as [x | xs]; cbn.
  - intros ->. rewrite radd_zero_r. reflexivity.
  - intros [Hsum ->]. unfold sum.
    rewrite (exact_sum_value _ _ Hsum), val_int_zero, radd_zero_l. reflexivity.
Qed.

Lemma exact_updates_value (args : list update_arg) (self : MeanMetric) :
  exact_updates add int_zero val radd args self ->
  val (state (fold_left (update add int_zero) args self))
    = radd (val (state self)) (rsum radd rzero (map val (items_seen args))).
Proof using radd_assoc radd_zero_l radd_zero_r val_int_zero.
  revert self. induction args as [| arg args IH]; intros self;
    cbn [exact_updates fold_left].
  - intros _. symmetry. apply radd_zero_r.
  - intros [Harg Hargs]. rewrite (IH _ Hargs), (exact_update_value _ _ Harg).
    unfold items_seen. cbn [map concat]. rewrite map_app, rsum_app.
    symmetry. apply radd_assoc.
Qed.

(** C10, amended: after any run of [update] calls on a new metric, the
    count is the number of items seen; the state is [0.] with what each
    call contributes (a scalar, or the [sum] of a batch) added to it in the
    order of the calls, in the arithmetic of the program, which rounds;
    [compute] never raises and returns the state divided by the count, and
    the int [0] when no item was seen. The state holds the exact sum of the
    items when no addition of the run rounds, and [compute] then returns
    their mean if the division does not round either. *)
Theorem C10_mean_up_to_rounding (args : list update_arg) :
  let n := Z.of_nat (List.length (items_seen args)) in
  let self := updates add int_zero float_zero args in
  count self = n /\
  state self = fold_left add (map (contribution add int_zero) args) float_zero /\
  compute int_zero truediv self
    = (if (0 <? n)%Z then Ok (truediv (state self) n) else Ok int_zero) /\
  (exact_updates add int_zero val radd args (MeanMetric_init float_zero) ->
   val (state self) = rsum radd rzero (map val (items_seen args)) /\
   ((0 < n)%Z ->
    val (truediv (state self) n) = rdiv (val (state self)) n ->
    exists value,
      compute int_zero truediv self = Ok value /\
      val value = rdiv (rsum radd rzero (map val (items_seen args))) n)).
Proof using radd_assoc radd_zero_l radd_zero_r val_int_zero val_float_zero.
  intros n self. subst self. unfold updates.
  destruct (updates_closed args (MeanMetric_init float_zero)) as [Hs Hc].
  cbn [state count MeanMetric_init] in Hs, Hc. rewrite Z.add_0_l in Hc. fold n in Hc.
  assert (compute int_zero truediv
            (fold_left (update add int_zero) args (MeanMetric_init float_zero))
          = if (0 <? n)%Z
            then Ok (truediv (state (fold_left (update add int_zero) args
                                       (MeanMetric_init float_zero))) n)
            else Ok int_zero) as Hcompute.
  { unfold compute. rewrite Hc. destruct (0 <? n)%Z eqn:Hn; [| reflexivity].
    unfold div. apply Z.ltb_lt in Hn.
    destruct (n =? 0)%Z eqn:Hz; [apply Z.eqb_eq in Hz; lia | reflexivity]. }
  split; [exact Hc |]. split; [exact Hs |]. split; [exact Hcompute |].
  intros Hexact. apply exact_updates_value in Hexact.
  cbn [state MeanMetric_init] in Hexact.
  rewrite val_float_zero, radd_zero_l in Hexact. split; [exact Hexact |].
  intros Hn Hdiv. rewrite Hcompute. apply Z.ltb_lt in Hn. rewrite Hn.
  eexists. split; [reflexivity |]. rewrite Hdiv, Hexact. reflexivity.
Qed.

End MeanMetricProps.

Lemma val_add_assoc (x y z : option Qc) :
  val_add x (val_add y z) = val_add (val_add x y) z.
Proof.
  destruct x, y, z; cbn; try reflexivity. rewrite Qcplus_assoc. reflexivity.
Qed.

Lemma val_add_zero_l (x : option Qc) : val_add (Some (Q2Qc 0)) x = x.
Proof. destruct x; cbn; [rewrite Qcplus_0_l |]; reflexivity. Qed.

Lemma val_add_zero_r (x : option Qc) : val_add x (Some (Q2Qc 0)) = x.
Proof. destruct x; cbn; [rewrite Qcplus_0_r |]; reflexivity. Qed.

(** Equality of two values, decided on their fractions. *)
Lemma val_eq (a b : option Qc) :
  match a, b with
  | Some x, Some y => (this x == this y)%Q
  | None, None => True
  | _, _ => False
  end -> a = b.
Proof.
  destruct a as [x |], b as [y |]; try contradiction; [| reflexivity].
  intros H. f_equal. apply Qc_is_canon, H.
Qed.

(** On binary64, for the run [1.5], [[2.0, 0.25]], [[]], [0.25]: no
    addition rounds, nor does the division, and [compute] returns the mean
    [1]. *)
Lemma C10_mean_up_to_rounding_witness :
  count (py_updates exact_run) = 4%Z /\
  exists value,
    py_compute (py_updates exact_run) = Ok value /\
    py_val value
      = val_div (rsum val_add (Some (Q2Qc 0)) (map py_val (items_seen exact_run))) 4 /\
    py_val value = Some (Q2Qc 1).
Proof.
  destruct (C10_mean_up_to_rounding py_add PyInt0 (PyFloat (S754_zero false))
              py_truediv py_val val_add (Some (Q2Qc 0)) val_div
              val_add_assoc val_add_zero_l val_add_zero_r eq_refl eq_refl
              exact_run) as (Hcount & _ & _ & Hexact).
  split; [exact Hcount |].
  destruct Hexact as [_ Hmean].
  { cbn [exact_updates exact_update exact_sum exact_add exact_run].
    split_and!; try exact I; apply val_eq; vm_compute; reflexivity. }
  destruct Hmean as (value & Hvalue & Hval);
    [reflexivity | apply val_eq; vm_compute; reflexivity |].
  exists value. split; [exact Hvalue |]. split; [exact Hval |].
  rewrite Hval. apply val_eq. vm_compute. reflexivity.
Defined.

(** C10 as stated fails on binary64: for the scalars [1e16], [1.0], [1.0]
    the two additions of [1.0] round and [compute] returns
    [3333333333333333.5], while the sum of the items divided by their
    number is [3333333333333334]. *)
Lemma C10_mean_rounded :
  exists value,
    py_compute (py_updates rounding_run) = Ok value /\
    py_val value = Some (Q2Qc (6666666666666667 # 2)) /\
    val_div (rsum val_add (Some (Q2Qc 0)) (map py_val (items_seen rounding_run))) 3
      = Some (Q2Qc (3333333333333334 # 1)) /\
    py_val value
      <> val_div (rsum val_add (Some (Q2Qc 0))
                    (map py_val (items_seen rounding_run))) 3.
Proof.
  eexists. split; [vm_compute; reflexivity |].
  assert (forall a b : option Qc, a = b ->
            match a, b with
            | Some x, Some y => (this x == this y)%Q
            | None, None => True
            | _, _ => False
            end) as Hval.
  { intros a b <-. destruct a; [reflexivity | exact I]. }
  split; [apply val_eq; vm_compute; reflexivity |].
  split; [apply val_eq; vm_compute; reflexivity |].
  intros H. apply Hval in H. vm_compute in H. discriminate.
Qed.

(** ** The object store *)

Lemma lookup_extend (h k : store) (l : loc) (o : object) :
  h !! l = Some o -> (h ++ k) !! l = Some o.
Proof. apply lookup_app_l_Some. Qed.

Lemma lookup_new (h : store) (o : object) :
  (h ++ [o]) !! List.length h = Some o.
Proof. apply list_lookup_middle. reflexivity. Qed.

Lemma read_item_extend (h k : store) (x : item) (c : context) :
  read_item h x = Some c -> read_item (h ++ k) x = Some c.
Proof.
  destruct x as [s | l]; cbn; [auto |].
  destruct (h !! l) as [o |] eqn:Hl; [| discriminate].
  rewrite (lookup_extend h k l o Hl). auto.
Qed.

Lemma read_items_extend (h k : store) (xs : list item) (cs : list context) :
  mapM (read_item h) xs = Some cs -> mapM (read_item (h ++ k)) xs = Some cs.
Proof.
  rewrite !mapM_Some. intros H. eapply Forall2_impl; [exact H |].
  intros x c. apply read_item_extend.
Qed.

Lemma read_list_extend (h k : store) (l : loc) (p : list context) :
  read_list h l = Some p -> read_list (h ++ k) l = Some p.
Proof.
  unfold read_list. destruct (h !! l) as [o |] eqn:Hl; [| discriminate].
  rewrite (lookup_extend h k l o Hl). destruct o; [| discriminate].
  apply read_items_extend.
Qed.

Lemma read_tokens_extend (h k : store) (l : loc) (ts : list token) :
  read_tokens h l = Some ts -> read_tokens (h ++ k) l = Some ts.
Proof.
  unfold read_tokens. destruct (h !! l) as [o |] eqn:Hl; [| discriminate].
  rewrite (lookup_extend h k l o Hl). auto.
Qed.

Lemma read_opt_extend (h k : store) (o : option loc) (p : option (list context)) :
  read_opt h o = Some p -> read_opt (h ++ k) o = Some p.
Proof.
  destruct o as [l |]; cbn; [| auto].
  destruct (read_list h l) as [q |] eqn:Hq; [| discriminate].
  rewrite (read_list_extend h k l q Hq). auto.
Qed.

Lemma bind_Some_inv {A B} (o : option A) (k : A -> option B) (b : B) :
  o ≫= k = Some b -> exists a, o = Some a /\ k a = Some b.
Proof. destruct o as [a |]; [eauto | discriminate]. Qed.

Lemma read_fields_extend (h k : store) (f : FieldsRef) (v : Fields) :
  read_fields h f = Some v -> read_fields (h ++ k) f = Some v.
Proof.
  unfold read_fields. intros H.
  repeat (apply bind_Some_inv in H as (? & ?%(read_list_extend h k) & H)
          || apply bind_Some_inv in H as (? & ?%(read_opt_extend h k) & H)
          || apply bind_Some_inv in H as (? & ?%(read_tokens_extend h k) & H)).
  repeat match goal with E : _ = Some _ |- _ => rewrite E; clear E; cbn end.
  reflexivity.
Qed.

Lemma read_meta_extend (h k : store) (m : TemplateMetaRef) (v : TemplateMeta) :
  read_meta h m = Some v -> read_meta (h ++ k) m = Some v.
Proof.
  unfold read_meta. intros H.
  apply bind_Some_inv in H as (f & Hf%(read_fields_extend h k) & H).
  apply bind_Some_inv in H as (p & Hp%(read_opt_extend h k) & H).
  rewrite Hf. cbn. rewrite Hp. exact H.
Qed.

(** Lists that can be read are in the store, with their inner lists. *)
Lemma read_items_refs (h : store) (xs : list item) (cs : list context) :
  mapM (read_item h) xs = Some cs ->
  Forall (fun l => l < List.length h) (inner_refs xs).
Proof.
  rewrite mapM_Some. induction 1 as [| x c xs cs Hx _ IH]; [constructor |].
  destruct x as [s | l]; cbn; [exact IH |].
  constructor; [| exact IH]. cbn in Hx.
  destruct (h !! l) eqn:Hl; [| discriminate]. eapply lookup_lt_Some, Hl.
Qed.

Lemma read_list_reach (h : store) (l : loc) (p : list context) :
  read_list h l = Some p -> Forall (fun l => l < List.length h) (reach_list h l).
Proof.
  unfold read_list, reach_list. destruct (h !! l) as [[xs | ts] |] eqn:Hl;
    try discriminate.
  intros H. constructor; [eapply lookup_lt_Some, Hl |].
  eapply read_items_refs, H.
Qed.

Lemma read_opt_reach (h : store) (o : option loc) (p : option (list context)) :
  read_opt h o = Some p -> Forall (fun l => l < List.length h) (reach_opt h o).
Proof.
  destruct o as [l |]; cbn; [| constructor].
  destruct (read_list h l) as [q |] eqn:Hq; [| discriminate].
  intros _. eapply read_list_reach, Hq.
Qed.

Lemma read_meta_containers (h : store) (m : TemplateMetaRef) (v : TemplateMeta) :
  read_meta h m = Some v ->
  Forall (fun l => l < List.length h) (containers h m).
Proof.
  unfold read_meta, containers. intros H.
  apply bind_Some_inv in H as (f & Hf & H).
  apply bind_Some_inv in H as (sp & Hsp%read_opt_reach & _).
  unfold read_fields in Hf.
  repeat (apply bind_Some_inv in Hf as (? & ?%read_list_reach & Hf)
          || apply bind_Some_inv in Hf as (? & ?%read_opt_reach & Hf)
          || apply bind_Some_inv in Hf as (? & ? & Hf)).
  match goal with E : read_tokens _ _ = Some _ |- _ =>
    unfold read_tokens in E;
    destruct (h !! placeholder_tokens m) eqn:Hpt; [| discriminate];
    apply lookup_lt_Some in Hpt
  end.
  repeat (apply Forall_app; split); try assumption.
  constructor; [assumption | constructor].
Qed.

(** [deepcopy] returns a list that reads the same, made of new inner lists. *)
Lemma deepcopy_items_spec (h0 : store) (xs : list item) :
  forall (cs : list context) (memo : gmap loc loc) (h : store),
    (exists k0, h = h0 ++ k0) ->
    memo_ok h0 h memo ->
    mapM (read_item h0) xs = Some cs ->
    exists ys k,
      deepcopy_items memo xs h = Some (Ok ys, h ++ k) /\
      mapM (read_item (h ++ k)) ys = Some cs /\
      Forall (fun l => List.length h0 <= l) (inner_refs ys).
Proof.
  induction xs as [| x xs IH]; intros cs memo h Hext Hmemo Hread.
  - injection Hread as <-. exists [], []. rewrite app_nil_r.
    repeat split. constructor.
  - cbn in Hread. apply bind_Some_inv in Hread as (c & Hc & Hread).
    apply bind_Some_inv in Hread as (cs' & Hcs' & [= <-]).
    destruct x as [s | l].
    + injection Hc as <-.
      destruct (IH cs' memo h Hext Hmemo Hcs') as (ys & k & Hrun & Hys & Hfresh).
      exists (IStr s :: ys), k. cbn. unfold mbind, heapM_bind. rewrite Hrun.
      split; [reflexivity |]. split; [| exact Hfresh].
      cbn. rewrite Hys. reflexivity.
    + cbn in Hc. destruct (h0 !! l) as [[| ts] |] eqn:Hl; try discriminate.
      injection Hc as <-. cbn. destruct (memo !! l) as [l' |] eqn:Hm.
      * destruct (Hmemo l l' Hm) as (Hge & ts' & Hl0 & Hl').
        assert (ts' = ts) as -> by congruence.
        destruct (IH cs' memo h Hext Hmemo Hcs') as (ys & k & Hrun & Hys & Hfresh).
        exists (IRef l' :: ys), k. unfold mbind, heapM_bind. rewrite Hrun.
        split; [reflexivity |]. split; [| constructor; assumption].
        cbn. rewrite (lookup_extend h k l' _ Hl'). cbn. rewrite Hys. reflexivity.
      * destruct Hext as [k0 ->].
        set (h1 := (h0 ++ k0) ++ [OTokens ts]).
        assert (memo_ok h0 h1 (<[l := List.length (h0 ++ k0)]> memo)) as Hmemo1.
        { intros a a' Ha. apply lookup_insert_Some in Ha as [[<- <-] | [Hne Ha]].
          - split; [rewrite length_app; lia |].
            exists ts. split; [exact Hl | apply lookup_new].
          - destruct (Hmemo a a' Ha) as (Hge & ts' & Ha0 & Ha').
            split; [exact Hge |]. exists ts'. split; [exact Ha0 |].
            apply lookup_extend, Ha'. }
        assert (exists k1, h1 = h0 ++ k1) as Hext1.
        { exists (k0 ++ [OTokens ts]). apply eq_sym, app_assoc. }
        destruct (IH cs' _ h1 Hext1 Hmemo1 Hcs') as (ys & k & Hrun & Hys & Hfresh).
        exists (IRef (List.length (h0 ++ k0)) :: ys), ([OTokens ts] ++ k).
        unfold mbind, heapM_bind, get_tokens, new.
        rewrite (lookup_extend h0 k0 l _ Hl). unfold h1 in *. rewrite Hrun.
        rewrite (app_assoc (h0 ++ k0)).
        split; [reflexivity |].
        split; [| constructor; [rewrite length_app; lia | exact Hfresh]].
        cbn. rewrite (lookup_extend _ k _ _ (lookup_new (h0 ++ k0) _)). cbn.
        rewrite Hys. reflexivity.
Qed.


Lemma read_list_inv (h : store) (l : loc) (cs : list context) :
  read_list h l = Some cs ->
  exists xs, h !! l = Some (OList xs) /\ mapM (read_item h) xs = Some cs.
Proof.
  unfold read_list. destruct (h !! l) as [[xs | ts] |]; try discriminate. eauto.
Qed.

Lemma read_list_new (h : store) (xs : list item) (cs : list context) :
  mapM (read_item h) xs = Some cs ->
  read_list (h ++ [OList xs]) (List.length h) = Some cs.
Proof.
  intros H. unfold read_list. rewrite lookup_new. apply read_items_extend, H.
Qed.

(** [__post_init__] on fields without a placeholder and without a default
    system: nothing is made, only attributes are set. *)
Lemma post_init_ref_plain (h : store) (f : FieldsRef) (p q : list context) :
  read_list h (prefix f) = Some p -> _has_system p = false ->
  read_list h (prompt f) = Some q -> _has_system q = false ->
  default_system f = None ->
  __post_init___ref f h =
    Some (Ok (mkTemplateMeta
                (let f' := set_default_system (Some "") f in
                 if is_None (tool_prompt f)
                 then set_tool_prompt (Some (prompt f)) f' else f')
                false None
                (if is_None (system_prefix f) then false else true)
                (negb (is_None (chat_sep f)))), h).
Proof.
  intros Hp Hhp Hq Hhq Hds.
  unfold __post_init___ref, mbind, heapM_bind, _has_system_ref.
  rewrite Hp. cbn. rewrite Hhp. cbn. rewrite Hq. cbn. rewrite Hhq. cbn.
  rewrite Hds. cbn. rewrite andb_true_r.
  destruct (tool_prompt f), (system_prefix f); reflexivity.
Qed.

Ltac solve_lookup := repeat first [apply lookup_new | apply lookup_extend].

(** C5 as stated fails: the variant does not keep the flag [auto_add_bos]
    of its source. *)
Lemma C5_auto_add_bos_not_preserved :
  exists g, to_generation_template_meta bos_prompt_meta = Ok g /\
    auto_add_bos g <> auto_add_bos bos_prompt_meta.
Proof. eexists. split; [reflexivity | discriminate]. Qed.

(** C5, amended: on any store in which the source instance reads as [v],
    the derivation returns an instance [g] and writes no object that
    existed: the store only grows, so the source reads as before. Every list
    [g] reaches is a new object, none of them one the source reaches; inside
    [g], [tool_prompt] is the list [prompt]. [g] reads as the value-level
    variant of [v]: empty [prefix], [prompt] the query placeholder alone,
    [suffix] the end-of-sequence token name, no [chat_sep] and no
    [system_prefix], [auto_add_bos] set, the empty [default_system];
    [template_type], [template_cls], [skip_prompt] and [support_stream] are
    those of the source and [stop_words] and [placeholder_tokens] are equal
    copies. *)
Theorem C5_generation_variant (h : store) (self : TemplateMetaRef) (v : TemplateMeta) :
  read_meta h self = Some v ->
  exists (h' : store) (g : TemplateMetaRef) (vg : TemplateMeta),
    to_generation_template_meta_ref self h = Some (Ok g, h') /\
    (exists k, h' = h ++ k) /\
    read_meta h' self = Some v /\
    Forall (fun l => List.length h <= l) (containers h' g) /\
    (forall l, l ∈ containers h' g -> l ∉ containers h self) /\
    read_meta h' g = Some vg /\
    to_generation_template_meta v = Ok vg /\
    prefix vg = [] /\ prompt vg = [CStr QUERY] /\
    suffix vg = [CList [TStr "eos_token_id"]] /\
    tool_prompt g = Some (prompt g) /\
    chat_sep vg = None /\ system_prefix vg = None /\
    auto_add_bos vg = true /\ default_system vg = Some "" /\
    template_type vg = template_type v /\
    template_cls vg = template_cls v /\
    skip_prompt vg = skip_prompt v /\
    support_stream vg = support_stream v /\
    stop_words vg = stop_words v /\
    placeholder_tokens vg = placeholder_tokens v.
Proof.
  intros Hself.
  assert (Hold := read_meta_containers h self v Hself).
  pose proof Hself as Hv. unfold read_meta in Hv.
  apply bind_Some_inv in Hv as (vf & Hvf & Hv).
  apply bind_Some_inv in Hv as (vsp & _ & [= <-]).
  unfold read_fields in Hvf.
  apply bind_Some_inv in Hvf as (v1 & _ & Hvf).
  apply bind_Some_inv in Hvf as (v2 & _ & Hvf).
  apply bind_Some_inv in Hvf as (v3 & _ & Hvf).
  apply bind_Some_inv in Hvf as (v4 & _ & Hvf).
  apply bind_Some_inv in Hvf as (v5 & _ & Hvf).
  apply bind_Some_inv in Hvf as (v6 & _ & Hvf).
  apply bind_Some_inv in Hvf as (ws & Hws & Hvf).
  apply bind_Some_inv in Hvf as (ts & Hts & [= <-]).
  apply read_list_inv in Hws as (xs & Hxs & Hread).
  unfold read_tokens in Hts.
  destruct (h !! placeholder_tokens self) as [[| ts'] |] eqn:Hpt; try discriminate.
  injection Hts as ->.
  set (h1 := h ++ [OList []]).
  set (h2 := h1 ++ [OList [IStr QUERY]]).
  set (h3 := h2 ++ [OTokens [TStr "eos_token_id"]]).
  set (h4 := h3 ++ [OList [IRef (List.length h2)]]).
  assert (exists k0, h4 = h ++ k0) as Hext4.
  { eexists. unfold h4, h3, h2, h1. rewrite <- !app_assoc. reflexivity. }
  destruct (deepcopy_items_spec h xs ws ∅ h4 Hext4) as (ys & k & Hrun & Hys & Hfresh).
  { intros a a' Ha. rewrite lookup_empty in Ha. discriminate. }
  { exact Hread. }
  set (h5 := h4 ++ k) in *.
  set (h6 := h5 ++ [OList ys]).
  set (h7 := h6 ++ [OTokens ts]).
  assert (Hl0 : h7 !! List.length h = Some (OList [])).
  { unfold h7, h6, h5, h4, h3, h2. solve_lookup. }
  assert (Hl1 : h7 !! List.length h1 = Some (OList [IStr QUERY])).
  { unfold h7, h6, h5, h4, h3. solve_lookup. }
  assert (Hl2 : h7 !! List.length h2 = Some (OTokens [TStr "eos_token_id"])).
  { unfold h7, h6, h5, h4. solve_lookup. }
  assert (Hl3 : h7 !! List.length h3 = Some (OList [IRef (List.length h2)])).
  { unfold h7, h6, h5. solve_lookup. }
  assert (Hl5 : h7 !! List.length h5 = Some (OList ys)).
  { unfold h7. solve_lookup. }
  assert (Hl6 : h7 !! List.length h6 = Some (OTokens ts)).
  { apply lookup_new. }
  assert (Hys7 : mapM (read_item h7) ys = Some ws).
  { unfold h7, h6. rewrite <- app_assoc. apply read_items_extend, Hys. }
  assert (Hext7 : exists k7, h7 = h ++ k7).
  { eexists. unfold h7, h6, h5, h4, h3, h2, h1. rewrite <- !app_assoc. reflexivity. }
  set (g := mkTemplateMeta
              (mkFields (template_type self) (List.length h) (List.length h1) None
                 (List.length h3) (template_cls self) (Some (List.length h1)) None
                 true (Some "") (List.length h5) (List.length h6)
                 (skip_prompt self) "react_en" (support_stream self))
              false None false false : TemplateMetaRef).
  assert (Hgo : to_generation_template_meta_ref self h = Some (Ok g, h7)).
  { unfold to_generation_template_meta_ref, mbind, heapM_bind, new.
    fold h1 h2 h3 h4. unfold deepcopy_list, deepcopy_tokens, mbind, heapM_bind, get_list, get_tokens, new.
    assert (h4 !! stop_words self = Some (OList xs)) as ->.
    { destruct Hext4 as [k0 ->]. apply lookup_extend, Hxs. }
    rewrite Hrun. fold h6.
    assert (h6 !! placeholder_tokens self = Some (OTokens ts)) as ->.
    { unfold h6, h5. destruct Hext4 as [k0 ->]. repeat apply lookup_extend. exact Hpt. }
    fold h7.
    erewrite post_init_ref_plain; [reflexivity | | | | | reflexivity]; cbn.
    - unfold read_list. rewrite Hl0. reflexivity.
    - reflexivity.
    - unfold read_list. rewrite Hl1. reflexivity.
    - reflexivity. }
  exists h7, g.
  eexists. split; [exact Hgo |]. split; [exact Hext7 |].
  split. { destruct Hext7 as [k7 ->]. apply read_meta_extend, Hself. }
  assert (Hnew : Forall (fun l => List.length h <= l) (containers h7 g)).
  { unfold containers, reach_list, reach_opt. cbn.
    rewrite Hl0, Hl1, Hl3, Hl5. cbn.
    repeat (apply Forall_cons; split;
            [unfold h6, h5, h4, h3, h2, h1; rewrite ?length_app; lia |]).
    apply Forall_app. split; [exact Hfresh |].
    constructor; [| constructor].
    unfold h6, h5, h4, h3, h2, h1. rewrite ?length_app. lia. }
  split; [exact Hnew |].
  split.
  { intros l Hl Hl'. rewrite Forall_forall in Hnew, Hold.
    specialize (Hnew l Hl). specialize (Hold l Hl'). lia. }
  split.
  { unfold read_meta, read_fields, read_opt, read_list, read_tokens. cbn.
    rewrite Hl0, Hl1, Hl3, Hl5, Hl6. cbn. rewrite Hl2. cbn. rewrite Hys7. cbn.
    reflexivity. }
  split_and!; reflexivity.
Qed.

Lemma C5_generation_variant_witness :
  exists (h' : store) (g : TemplateMetaRef) (vg : TemplateMeta),
    to_generation_template_meta_ref sample_self sample_store = Some (Ok g, h') /\
    (exists k, h' = sample_store ++ k) /\
    Forall (fun l => 6 <= l) (containers h' g) /\
    read_meta h' g = Some vg /\
    stop_words vg = [CStr "<|end|>"; CList [TStr "eos_token_id"];
                     CList [TStr "eos_token_id"]].
Proof.
  destruct (C5_generation_variant sample_store sample_self _ eq_refl)
    as (h' & g & vg & H1 & H2 & _ & H4 & _ & H6 & H).
  exists h', g, vg. split_and!; try assumption.
  apply H.
Defined.

(** ** [__post_init__] on the store refines [__post_init__] on values *)

Lemma post_init_unfold (f : Fields) :
  __post_init__ f =
    self ← (if _has_system (prefix f) then
              _ ← assert (is_None (system_prefix f));
              prefix' ← _replace_system (prefix f);
              Ok (set_prefix prefix' (set_system_prefix (Some (prefix f)) f))
            else Ok f);
    post_init_rest self.
Proof. reflexivity. Qed.

Lemma post_init_ref_unfold (f : FieldsRef) (h : store) :
  __post_init___ref f h =
    (has ← _has_system_ref (prefix f);
     self ← (if has : bool then
               _ ← lift (assert (is_None (system_prefix f)));
               prefix' ← _replace_system_ref (prefix f);
               mret (set_prefix prefix' (set_system_prefix (Some (prefix f)) f))
             else mret f);
     post_init_rest_ref self) h.
Proof.
  unfold __post_init___ref, post_init_rest_ref, post_init_tail, mbind, heapM_bind, lift.
  destruct f as [tt pre pro cs suf cls tp sp bos ds sw pt skp dtp ss].
  cbn -[_has_system_ref _replace_system_ref filter_system_ref check_system].
  destruct (_has_system_ref pre h) as [[[has | e] h1] |]; [| reflexivity ..].
  destruct has.
  - destruct (assert (is_None sp)); [| reflexivity].
    destruct (_replace_system_ref pre h1) as [[[pre' | e] h2] |]; [| reflexivity ..].
    cbn -[_has_system_ref _replace_system_ref filter_system_ref check_system].
    destruct (_has_system_ref pro h2) as [[[ips | e] h3] |]; [| reflexivity ..].
    destruct ips.
    + destruct (filter_system_ref pro h3) as [[[pro' | e] h4] |]; [| reflexivity ..].
      cbn. destruct (check_system _ _); reflexivity.
    + cbn. destruct (check_system _ _); reflexivity.
  - cbn -[_has_system_ref _replace_system_ref filter_system_ref check_system].
    destruct (_has_system_ref pro h1) as [[[ips | e] h3] |]; [| reflexivity ..].
    destruct ips.
    + destruct (filter_system_ref pro h3) as [[[pro' | e] h4] |]; [| reflexivity ..].
      cbn. destruct (check_system _ _); reflexivity.
    + cbn. destruct (check_system _ _); reflexivity.
Qed.

Lemma replace_items_sim (h : store) (xs : list item) (cs : list context) :
  mapM (read_item h) xs = Some cs ->
  match mapM replace_system_item xs with
  | Ok ys => exists cs', _replace_system cs = Ok cs' /\
               forall h', mapM (read_item h') ys = Some cs'
  | Raise e => _replace_system cs = Raise e
  end.
Proof.
  unfold _replace_system. revert cs.
  induction xs as [| x xs IH]; intros cs Hread.
  - injection Hread as <-. exists []. split; reflexivity.
  - cbn in Hread. apply bind_Some_inv in Hread as (c & Hc & Hread).
    apply bind_Some_inv in Hread as (cs' & Hcs' & [= <-]).
    specialize (IH cs' Hcs'). rewrite !mapM_result_cons.
    destruct x as [s | l].
    + injection Hc as <-. cbn.
      destruct (mapM replace_system_item xs) as [ys | e].
      * destruct IH as (qs & -> & Hqs). cbn. eexists. split; [reflexivity |].
        intros h'. cbn. rewrite Hqs. reflexivity.
      * rewrite IH. reflexivity.
    + cbn in Hc. destruct (h !! l) as [[| ts] |]; try discriminate.
      injection Hc as <-. reflexivity.
Qed.

Lemma filter_items_sim (h : store) (xs : list item) (cs : list context) :
  mapM (read_item h) xs = Some cs ->
  mapM (read_item h) (filter (fun x => negb (item_system_in h x)) xs)
    = Some (filter (fun c => negb (system_in c)) cs).
Proof.
  revert cs. induction xs as [| x xs IH]; intros cs Hread.
  - injection Hread as <-. reflexivity.
  - cbn in Hread. apply bind_Some_inv in Hread as (c & Hc & Hread).
    apply bind_Some_inv in Hread as (cs' & Hcs' & [= <-]).
    assert (item_system_in h x = system_in c) as E.
    { unfold item_system_in. rewrite Hc. reflexivity. }
    destruct (system_in c) eqn:Hs.
    + rewrite (filter_cons_False _ x) by (rewrite E; intros []).
      rewrite (filter_cons_False _ c) by (rewrite Hs; intros []).
      apply IH, Hcs'.
    + rewrite (filter_cons_True _ x) by (rewrite E; exact I).
      rewrite (filter_cons_True _ c) by (rewrite Hs; exact I).
      cbn. rewrite Hc. cbn. rewrite (IH cs' Hcs'). reflexivity.
Qed.

Ltac invert_read_fields H :=
  unfold read_fields in H;
  repeat (let v := fresh "v" in let Hv := fresh "Hv" in
          apply bind_Some_inv in H as (v & Hv & H));
  injection H as <-.

Ltac rewrite_reads :=
  repeat match goal with
         | E : ?x = Some _ |- context [?x] => rewrite E; cbn
         end.

Lemma read_fields_set_prefix (h : store) (f : FieldsRef) (vf : Fields)
    (l : loc) (p : Prompt) :
  read_fields h f = Some vf -> read_list h l = Some p ->
  read_fields h (set_prefix l f) = Some (set_prefix p vf).
Proof.
  intros H Hl. invert_read_fields H. destruct f. unfold read_fields. cbn in *.
  rewrite_reads. reflexivity.
Qed.

Lemma read_fields_set_prompt (h : store) (f : FieldsRef) (vf : Fields)
    (l : loc) (p : Prompt) :
  read_fields h f = Some vf -> read_list h l = Some p ->
  read_fields h (set_prompt l f) = Some (set_prompt p vf).
Proof.
  intros H Hl. invert_read_fields H. destruct f. unfold read_fields. cbn in *.
  rewrite_reads. reflexivity.
Qed.

Lemma read_fields_set_system_prefix (h : store) (f : FieldsRef) (vf : Fields)
    (l : loc) (p : Prompt) :
  read_fields h f = Some vf -> read_list h l = Some p ->
  read_fields h (set_system_prefix (Some l) f)
    = Some (set_system_prefix (Some p) vf).
Proof.
  intros H Hl. invert_read_fields H. destruct f. unfold read_fields. cbn in *.
  rewrite_reads. reflexivity.
Qed.

Lemma read_opt_is_None (h : store) (o : option loc) (v : option Prompt) :
  read_opt h o = Some v -> is_None v = is_None o.
Proof.
  destruct o as [l |]; cbn; [| intros [= <-]; reflexivity].
  destruct (read_list h l); [| discriminate]. intros [= <-]. reflexivity.
Qed.

Lemma post_init_tail_refines (h : store) (f : FieldsRef) (vf : Fields) (b : bool) :
  read_fields h f = Some vf ->
  match post_init_tail f b with
  | Ok g => exists vg, post_init_tail vf b = Ok vg /\ read_meta h g = Some vg
  | Raise e => post_init_tail vf b = Raise e
  end.
Proof.
  intros H. invert_read_fields H.
  destruct f as [tt pre pro cs suf cls tp sp bos ds sw pt skp dtp ss].
  unfold post_init_tail. cbn in *.
  repeat match goal with
         | E : read_opt _ _ = Some _ |- _ =>
             rewrite (read_opt_is_None _ _ _ E)
         end.
  destruct (check_system _ _) as [d | e]; cbn; [| reflexivity].
  eexists. split; [reflexivity |].
  unfold read_meta, read_fields.
  destruct tp, b; cbn in *; rewrite_reads; reflexivity.
Qed.

Lemma post_init_rest_refines (h : store) (f : FieldsRef) (vf : Fields) :
  read_fields h f = Some vf ->
  exists r h',
    post_init_rest_ref f h = Some (r, h') /\
    (exists k, h' = h ++ k) /\
    match r with
    | Ok g => exists vg, post_init_rest vf = Ok vg /\ read_meta h' g = Some vg
    | Raise e => post_init_rest vf = Raise e
    end.
Proof.
  intros H.
  assert (read_list h (prompt f) = Some (prompt vf)) as Hpro.
  { pose proof H as H'. invert_read_fields H'. assumption. }
  unfold post_init_rest_ref, post_init_rest, mbind, heapM_bind, _has_system_ref.
  rewrite Hpro. cbn. destruct (_has_system (prompt vf)).
  - apply read_list_inv in Hpro as (xs & Hxs & Hread).
    unfold filter_system_ref, mbind, heapM_bind, get_list, new. rewrite Hxs.
    cbn. eexists _, _. split; [reflexivity |]. split; [eauto |].
    apply post_init_tail_refines, read_fields_set_prompt.
    + apply read_fields_extend, H.
    + apply read_list_new, filter_items_sim, Hread.
  - cbn. eexists _, _. split; [reflexivity |].
    split; [exists []; symmetry; apply app_nil_r |].
    apply post_init_tail_refines, H.
Qed.

#[local] Arguments post_init_rest_ref : simpl never.
#[local] Arguments post_init_rest : simpl never.

(** The store version of [__post_init__] raises when the value version
    does, and otherwise returns an instance that reads as the value
    version's, in a store that has only grown. *)
Lemma post_init_ref_refines (h : store) (f : FieldsRef) (vf : Fields) :
  read_fields h f = Some vf ->
  exists r h',
    __post_init___ref f h = Some (r, h') /\
    (exists k, h' = h ++ k) /\
    match r with
    | Ok g => exists vg, __post_init__ vf = Ok vg /\ read_meta h' g = Some vg
    | Raise e => __post_init__ vf = Raise e
    end.
Proof.
  intros H.
  assert (read_list h (prefix f) = Some (prefix vf)) as Hpre.
  { pose proof H as H'. invert_read_fields H'. assumption. }
  assert (is_None (system_prefix vf) = is_None (system_prefix f)) as Hsp.
  { pose proof H as H'. invert_read_fields H'. cbn.
    eapply read_opt_is_None. eassumption. }
  rewrite post_init_ref_unfold, post_init_unfold.
  unfold mbind at 1, heapM_bind at 1, _has_system_ref. rewrite Hpre. cbn.
  destruct (_has_system (prefix vf)).
  - rewrite Hsp. unfold mbind at 1, heapM_bind at 1.
    destruct (is_None (system_prefix f)); cbn.
    + apply read_list_inv in Hpre as (xs & Hxs & Hread).
      pose proof (replace_items_sim h xs _ Hread) as Hsim.
      unfold _replace_system_ref, lift, mbind, heapM_bind, get_list, new.
      rewrite Hxs. destruct (mapM replace_system_item xs) as [ys | e].
      * destruct Hsim as (cs' & Hcs' & Hys).
        pose (h1 := h ++ [OList ys]).
        assert (read_fields h1 (set_prefix (List.length h)
                                  (set_system_prefix (Some (prefix f)) f))
                = Some (set_prefix cs' (set_system_prefix (Some (prefix vf)) vf)))
          as Hf1.
        { apply read_fields_set_prefix;
            [apply read_fields_set_system_prefix |].
          - apply read_fields_extend, H.
          - apply read_list_extend. unfold read_list. rewrite Hxs. exact Hread.
          - apply read_list_new, Hys. }
        destruct (post_init_rest_refines _ _ _ Hf1) as (r & h' & Hrun & [k Hk] & Hr).
        exists r, h'. cbn. fold h1. rewrite Hrun. split; [reflexivity |].
        split. { exists ([OList ys] ++ k). rewrite Hk. unfold h1.
                 symmetry. apply app_assoc. }
        rewrite Hcs'. exact Hr.
      * exists (Raise e), h. split; [reflexivity |].
        split; [exists []; symmetry; apply app_nil_r |].
        rewrite Hsim. reflexivity.
    + exists (Raise AssertionError), h. split; [reflexivity |].
      split; [exists []; symmetry; apply app_nil_r | reflexivity].
  - destruct (post_init_rest_refines _ _ _ H) as (r & h' & Hrun & Hk & Hr).
    exists r, h'. split; [exact Hrun |]. split; [exact Hk | exact Hr].
Qed.

(** * Further properties *)

(** ** Construction *)

Lemma replace_absent (old new s : string) :
  PyStr.contains old s = false -> PyStr.replace old new s = s.
Proof.
  unfold PyStr.replace. induction s as [| c s IH]; [reflexivity |].
  cbn [PyStr.contains PyStr.replace_from]. intros H.
  apply orb_false_iff in H as [Hp Hs]. rewrite Hp, (IH Hs). reflexivity.
Qed.

Lemma replace_system_is_text (p q : Prompt) :
  _replace_system p = Ok q ->
  forallb is_text p = true /\ forallb is_text q = true.
Proof.
  unfold _replace_system. intros H. apply mapM_result_Forall2 in H.
  induction H as [| c c' p q Hc _ [IH1 IH2]]; [split; reflexivity |].
  destruct c as [s | l]; [| discriminate]. injection Hc as <-.
  cbn. rewrite IH1, IH2. split; reflexivity.
Qed.

(** X1: construction strips the placeholder from the prefix element by
    element: the prefix keeps its number of elements and an element that
    does not contain the placeholder is unchanged; a prefix that embedded
    the placeholder consisted of text only, before and after. *)
Theorem prefix_stripped_elementwise (f : Fields) (m : TemplateMeta) :
  TemplateMeta_new f = Ok m ->
  Forall2 (fun c c' => system_in c = false -> c' = c) (prefix f) (prefix m) /\
  (_has_system (prefix f) = true ->
   forallb is_text (prefix f) = true /\ forallb is_text (prefix m) = true).
Proof.
  intros H. apply post_init_inv in H as (pre & ds & Hpre & _ & ->). cbn.
  destruct (_has_system (prefix f)) eqn:Hhas.
  - destruct Hpre as [_ Hrep]. split; [| intros _; eapply replace_system_is_text, Hrep].
    unfold _replace_system in Hrep. apply mapM_result_Forall2 in Hrep.
    eapply Forall2_impl; [exact Hrep |]. intros c c' Hc.
    destruct c as [s | l]; [| discriminate]. injection Hc as <-.
    cbn. intros Hs. rewrite (replace_absent _ _ _ Hs). reflexivity.
  - subst pre. split; [| discriminate].
    apply Forall2_same_length_lookup_2; [reflexivity |].
    intros i c c' H1 H2. congruence.
Qed.

Lemma prefix_stripped_elementwise_witness :
  Forall2 (fun c c' => system_in c = false -> c' = c)
    [CStr "<s>"; CStr "system:{{SYSTEM}}"] [CStr "<s>"; CStr "system:"] /\
  (_has_system [CStr "<s>"; CStr "system:{{SYSTEM}}"] = true ->
   forallb is_text [CStr "<s>"; CStr "system:{{SYSTEM}}"] = true /\
   forallb is_text [CStr "<s>"; CStr "system:"] = true).
Proof.
  exact (prefix_stripped_elementwise
           (set_prefix [CStr "<s>"; CStr "system:{{SYSTEM}}"] no_system_fields)
           (mkTemplateMeta
              (mkFields "plain" [CStr "<s>"; CStr "system:"]
                 [CStr "{{QUERY}}"] None [CList [TStr "eos_token_id"]] Template
                 (Some [CStr "{{QUERY}}"])
                 (Some [CStr "<s>"; CStr "system:{{SYSTEM}}"])
                 false (Some "") [] [] true "react_en" true)
              false None true false)
           eq_refl).
Defined.

Lemma replace_system_ok_iff (p : Prompt) :
  (exists q, _replace_system p = Ok q) <-> forallb is_text p = true.
Proof.
  split.
  - intros [q H]. apply (replace_system_is_text _ _ H).
  - intros H. unfold _replace_system.
    induction p as [| c p IH]; [exists []; reflexivity |].
    cbn in H. apply andb_true_iff in H as [Hc Hp]. destruct (IH Hp) as [q Hq].
    destruct c as [s | l]; [| discriminate]. eexists.
    rewrite mapM_result_cons. cbn. rewrite Hq. reflexivity.
Qed.

Lemma replace_system_raises (p : Prompt) (e : exn) :
  _replace_system p = Raise e -> e = AttributeError.
Proof.
  unfold _replace_system. induction p as [| c p IH]; [discriminate |].
  rewrite mapM_result_cons. destruct c as [s | l]; cbn; [| congruence].
  destruct (mapM replace_system_in p); cbn; [discriminate |].
  intros [= <-]. apply IH. reflexivity.
Qed.

Lemma check_system_ok_iff (support : bool) (system : option string) :
  (exists s, check_system support system = Ok s) <->
  (truthy (default "" system) = true -> support = true).
Proof.
  unfold check_system. destruct system as [[| c t] |], support; cbn;
    split; intros H; try congruence; try (eexists; reflexivity).
  - destruct H as [s H]. discriminate.
  - specialize (H eq_refl). discriminate.
Qed.

Lemma check_system_raises (support : bool) (system : option string) (e : exn) :
  check_system support system = Raise e -> e = AssertionError.
Proof.
  unfold check_system. destruct system as [[| c t] |], support; cbn; congruence.
Qed.

(** [__post_init__] in closed form. *)
Lemma post_init_eq (f : Fields) :
  __post_init__ f =
    prefix' ← (if _has_system (prefix f)
               then _ ← assert (is_None (system_prefix f));
                    _replace_system (prefix f)
               else Ok (prefix f));
    default_system' ← check_system (post_init_support_system f) (default_system f);
    Ok (mkTemplateMeta
          (mkFields (template_type f) prefix' (post_init_prompt f) (chat_sep f)
             (suffix f) (template_cls f)
             (if is_None (tool_prompt f) then Some (post_init_prompt f)
              else tool_prompt f)
             (post_init_system_prefix f) (auto_add_bos f)
             (Some default_system') (stop_words f) (placeholder_tokens f)
             (skip_prompt f) (default_tools_prompt f) (support_stream f))
          (_has_system (prompt f))
          (if _has_system (prompt f) then Some (post_init_prompt f) else None)
          (post_init_support_system f)
          (negb (is_None (chat_sep f)))).
Proof.
  unfold __post_init__, post_init_support_system, post_init_system_prefix,
    post_init_prompt.
  destruct f as [tt pre pro cs suf cls tp sp bos ds sw pt skp dtp ss]. cbn.
  destruct (_has_system pre); cbn.
  - destruct sp as [sp |]; cbn; [reflexivity |].
    destruct (_replace_system pre) as [pre' |]; cbn; [| reflexivity].
    destruct (_has_system pro); cbn;
      (destruct (check_system _ ds) as [ds' |]; cbn; [| reflexivity]);
      destruct tp; reflexivity.
  - destruct (_has_system pro); cbn;
      (destruct (check_system _ ds) as [ds' |]; cbn; [| reflexivity]);
      destruct tp; reflexivity.
Qed.

(** X2: the constructor returns an instance exactly when (1) a prefix that
    embeds the placeholder comes with no [system_prefix] and holds text
    only, and (2) a non-empty [default_system] comes with system support;
    when it raises, it raises [AssertionError], or [AttributeError] for a
    token list in a prefix that embeds the placeholder. *)
Theorem constructor_succeeds_iff (f : Fields) :
  ((exists m, TemplateMeta_new f = Ok m) <->
   (_has_system (prefix f) = true ->
    system_prefix f = None /\ forallb is_text (prefix f) = true) /\
   (truthy (default "" (default_system f)) = true ->
    post_init_support_system f = true)) /\
  (forall e, TemplateMeta_new f = Raise e ->
     e = AssertionError \/
     (e = AttributeError /\ _has_system (prefix f) = true /\
      system_prefix f = None /\ forallb is_text (prefix f) = false)).
Proof.
  unfold TemplateMeta_new. rewrite post_init_eq.
  rewrite <- (check_system_ok_iff _ (default_system f)).
  rewrite <- (replace_system_ok_iff (prefix f)).
  destruct (_has_system (prefix f)) eqn:Hpre; cbn.
  - destruct (system_prefix f) as [sp |]; cbn.
    { split; [| intros e [= <-]; left; reflexivity].
      split; [intros [m H]; discriminate |].
      intros [H _]. destruct (H eq_refl) as [H' _]. discriminate. }
    destruct (_replace_system (prefix f)) as [pre' |] eqn:Hrep; cbn.
    + split.
      * split.
        -- intros [m H].
           destruct (check_system _ _) as [d |] eqn:Hd; [| discriminate].
           split; eauto.
        -- intros [_ [d Hd]]. rewrite Hd. cbn. eauto.
      * intros e H. left.
        destruct (check_system _ _) as [d |] eqn:Hd; [discriminate |].
        cbn in H. injection H as <-. eapply check_system_raises, Hd.
    + split.
      * split; [intros [m H]; discriminate |].
        intros [H _]. destruct (H eq_refl) as [_ [q Hq]]. discriminate.
      * intros e' [= <-]. right.
        rewrite (replace_system_raises _ _ Hrep) in *.
        split_and!; try reflexivity.
        destruct (forallb is_text (prefix f)) eqn:E; [| reflexivity].
        apply replace_system_ok_iff in E as [q Hq]. congruence.
  - split.
    + split.
      * intros [m H].
        destruct (check_system _ _) as [d |] eqn:Hd; [| discriminate].
        split; [discriminate | eauto].
      * intros [_ [d Hd]]. rewrite Hd. cbn. eauto.
    + intros e H. left.
      destruct (check_system _ _) as [d |] eqn:Hd; [discriminate |].
      cbn in H. injection H as <-. eapply check_system_raises, Hd.
Qed.

(** X3: construction leaves the other fields as given: the template type,
    [chat_sep], [suffix], the class, the stop words, the placeholder tokens
    and the flags; a [tool_prompt] that is given is stored as given, with
    its placeholder-bearing elements if any; and the prompt only loses
    elements: it keeps, in order, exactly the elements without the
    placeholder when some element has it, and all of them otherwise. *)
Theorem constructor_frame (f : Fields) (m : TemplateMeta) :
  TemplateMeta_new f = Ok m ->
  template_type m = template_type f /\ chat_sep m = chat_sep f /\
  suffix m = suffix f /\ template_cls m = template_cls f /\
  auto_add_bos m = auto_add_bos f /\ stop_words m = stop_words f /\
  placeholder_tokens m = placeholder_tokens f /\
  skip_prompt m = skip_prompt f /\
  default_tools_prompt m = default_tools_prompt f /\
  support_stream m = support_stream f /\
  (forall tp, tool_prompt f = Some tp -> tool_prompt m = Some tp) /\
  prompt m `sublist_of` prompt f /\
  (forall c, c ∈ prompt m <->
             c ∈ prompt f /\ (is_post_system m = true -> system_in c = false)).
Proof.
  intros H. apply post_init_inv in H as (pre & ds & _ & _ & ->). cbn.
  split_and!; try reflexivity.
  - intros tp ->. reflexivity.
  - unfold post_init_prompt. destruct (_has_system (prompt f));
      [apply sublist_filter | reflexivity].
  - intros c. unfold post_init_prompt.
    destruct (_has_system (prompt f)).
    + rewrite list_elem_of_filter. split.
      * intros [Hc Hin]. split; [exact Hin |]. intros _.
        destruct (system_in c); [contradiction Hc | reflexivity].
      * intros [Hin Hc]. split; [| exact Hin]. rewrite (Hc eq_refl). exact I.
    + split; [intros Hin; split; [exact Hin | discriminate] | tauto].
Qed.

Lemma constructor_frame_witness :
  exists m,
    TemplateMeta_new
      (set_tool_prompt (Some [CStr "{{SYSTEM}}"; CStr "{{QUERY}}"])
         (set_prompt [CStr "{{SYSTEM}}"; CStr "{{QUERY}}"] no_system_fields))
      = Ok m /\
    prompt m = [CStr "{{QUERY}}"] /\
    tool_prompt m = Some [CStr "{{SYSTEM}}"; CStr "{{QUERY}}"].
Proof.
  eexists. split; [reflexivity |]. split; [reflexivity |].
  destruct (constructor_frame
              (set_tool_prompt (Some [CStr "{{SYSTEM}}"; CStr "{{QUERY}}"])
                 (set_prompt [CStr "{{SYSTEM}}"; CStr "{{QUERY}}"] no_system_fields))
              _ eq_refl)
    as (_ & _ & _ & _ & _ & _ & _ & _ & _ & _ & H & _).
  apply H. reflexivity.
Defined.

(** ** The generation variant *)

(** X4: the derivation always returns, and deriving from a variant returns
    that variant: the derivation is idempotent. *)
Theorem generation_variant_idempotent (self : TemplateMeta) :
  exists g, to_generation_template_meta self = Ok g /\
            to_generation_template_meta g = Ok g.
Proof. eexists. split; reflexivity. Qed.

(** X5: whatever the source supports, its generation variant supports no
    system and no multi-round: [check_system] on it accepts only [None] and
    the empty string, and raises on every non-empty system. *)
Theorem generation_variant_rejects_system (self : TemplateMeta) :
  exists g, to_generation_template_meta self = Ok g /\
    support_system g = false /\ support_multi_round g = false /\
    is_post_system g = false /\
    check_system (support_system g) None = Ok "" /\
    forall s, check_system (support_system g) (Some s)
              = if truthy s then Raise AssertionError else Ok "".
Proof.
  eexists. split; [reflexivity |]. cbn. split_and!; try reflexivity.
  intros [| c s]; reflexivity.
Qed.

(** X6: resolving a generation variant needs [eos_token_id] and nothing
    else: with it, only the suffix changes, to the one id; without it the
    resolution raises [AttributeError] and leaves the variant as it was. The
    stop words are never resolved. *)
Theorem generation_variant_resolution (self : TemplateMeta)
    (tokenizer : PreTrainedTokenizerBase) :
  exists g, to_generation_template_meta self = Ok g /\
    match tokenizer !! "eos_token_id" with
    | Some i =>
        token_attr_to_id tokenizer g
          = (with_fields (set_suffix [CList [TInt i]] g) g, Ok tt)
    | None => token_attr_to_id tokenizer g = (g, Raise AttributeError)
    end.
Proof.
  eexists. split; [lazy; reflexivity |].
  unfold token_attr_to_id. cbn. unfold getattr.
  destruct (tokenizer !! "eos_token_id"); reflexivity.
Qed.

(** ** Token resolution, further *)

Lemma mapM_result_ok_iff {A B} (f : A -> result B) (l : list A) :
  (exists k, mapM f l = Ok k) <-> Forall (fun x => exists y, f x = Ok y) l.
Proof.
  induction l as [| x l IH].
  - split; [constructor | exists []; reflexivity].
  - rewrite mapM_result_cons, Forall_cons, <- IH. split.
    + intros [k H]. destruct (f x) as [y |]; [| discriminate]. cbn in H.
      destruct (mapM f l) as [k' |]; [| discriminate]. eauto.
    + intros [[y ->] [k' ->]]. cbn. eauto.
Qed.

Lemma mapM_result_raises {A B} (f : A -> result B) (l : list A) (e : exn) :
  mapM f l = Raise e -> Exists (fun x => f x = Raise e) l.
Proof.
  induction l as [| x l IH]; [discriminate |].
  rewrite mapM_result_cons. destruct (f x) as [y | e'] eqn:Hx; cbn.
  - destruct (mapM f l) as [k' | e']; cbn; [discriminate |].
    intros [= <-]. right. apply IH. reflexivity.
  - intros [= <-]. left. exact Hx.
Qed.

Lemma sub_v_to_id_ok_iff (tokenizer : PreTrainedTokenizerBase) (l : list token) :
  (exists l', mapM (sub_v_to_id tokenizer) l = Ok l') <->
  Forall (fun name => is_Some (tokenizer !! name)) (token_names l).
Proof.
  rewrite mapM_result_ok_iff. unfold token_names.
  induction l as [| t l IH]; [split; constructor |].
  rewrite Forall_cons, IH. destruct t as [i | name]; cbn.
  - split; [tauto | intros H; split; [eauto | exact H]].
  - rewrite Forall_cons. unfold getattr.
    destruct (tokenizer !! name) as [i |]; cbn.
    + split; intros [_ H]; split; eauto.
    + split; intros [[y Hy] _]; discriminate.
Qed.

Lemma v_to_id_ok_iff (tokenizer : PreTrainedTokenizerBase) (p : Prompt) :
  (exists p', mapM (v_to_id tokenizer) p = Ok p') <->
  Forall (fun name => is_Some (tokenizer !! name)) (prompt_names p).
Proof.
  rewrite mapM_result_ok_iff. unfold prompt_names.
  induction p as [| c p IH]; [split; constructor |].
  rewrite Forall_cons, IH. cbn [flat_map]. rewrite Forall_app.
  destruct c as [s | l].
  - cbn. split; [intros [_ H]; split; [constructor | exact H]
                | intros [_ H]; split; [eauto | exact H]].
  - rewrite <- sub_v_to_id_ok_iff. cbn. split.
    + intros [[y Hy] H]. split; [| exact H].
      destruct (mapM (sub_v_to_id tokenizer) l); [eauto | discriminate].
    + intros [[l' ->] H]. cbn. eauto.
Qed.

Lemma _token_attr_to_id_ok_iff (tokenizer : PreTrainedTokenizerBase)
    (value : option Prompt) :
  (exists value', _token_attr_to_id tokenizer value = Ok value') <->
  Forall (fun name => is_Some (tokenizer !! name))
    (from_option prompt_names [] value).
Proof.
  destruct value as [p |]; cbn; [| split; [constructor | eauto]].
  rewrite <- v_to_id_ok_iff. split.
  - intros [v H]. destruct (mapM (v_to_id tokenizer) p); [eauto | discriminate].
  - intros [p' ->]. cbn. eauto.
Qed.

Lemma _token_attr_to_id_raises (tokenizer : PreTrainedTokenizerBase)
    (value : option Prompt) (e : exn) :
  _token_attr_to_id tokenizer value = Raise e -> e = AttributeError.
Proof.
  destruct value as [p |]; cbn; [| discriminate].
  destruct (mapM (v_to_id tokenizer) p) as [| e'] eqn:Hp; cbn; [discriminate |].
  intros [= <-]. apply mapM_result_raises, Exists_exists in Hp as (c & _ & Hc).
  destruct c as [s | l]; cbn in Hc; [discriminate |].
  destruct (mapM (sub_v_to_id tokenizer) l) as [| e''] eqn:Hl; cbn in Hc;
    [discriminate |].
  injection Hc as <-.
  apply mapM_result_raises, Exists_exists in Hl as (t & _ & Ht).
  destruct t as [i | name]; cbn in Ht; [discriminate |].
  unfold getattr in Ht. destruct (tokenizer !! name); cbn in Ht; congruence.
Qed.

Lemma token_attr_to_id_keys_raises (tokenizer : PreTrainedTokenizerBase)
    (keys : list key) (self self' : TemplateMeta) (e : exn) :
  token_attr_to_id_keys tokenizer keys self = (self', Raise e) ->
  exists done k rest,
    keys = done ++ k :: rest /\
    token_attr_to_id_keys tokenizer done self = (self', Ok tt) /\
    _token_attr_to_id tokenizer (getattr_key self' k) = Raise e.
Proof.
  revert self. induction keys as [| k keys IH]; intros self; [discriminate |].
  cbn -[_token_attr_to_id].
  destruct (_token_attr_to_id tokenizer (getattr_key self k)) as [v | e'] eqn:Hk.
  - intros H. destruct (IH _ H) as (done & k' & rest & -> & Hdone & Hk').
    exists (k :: done), k', rest. split; [reflexivity |].
    cbn -[_token_attr_to_id]. rewrite Hk. auto.
  - intros [= <- <-]. exists [], k, keys. auto.
Qed.

(** X7: resolution returns exactly when the tokenizer has every attribute
    that the five segment fields of the loop name; otherwise it raises
    [AttributeError], and never another exception. *)
Theorem resolution_succeeds_iff (tokenizer : PreTrainedTokenizerBase)
    (self : TemplateMeta) :
  ((token_attr_to_id tokenizer self).2 = Ok tt <->
   Forall (fun name => is_Some (tokenizer !! name)) (loop_names self)) /\
  (forall e, (token_attr_to_id tokenizer self).2 = Raise e -> e = AttributeError).
Proof.
  split.
  - unfold loop_names. rewrite !Forall_app.
    rewrite <- !v_to_id_ok_iff, <- !_token_attr_to_id_ok_iff. split.
    + intros H. destruct (token_attr_to_id tokenizer self) as [self' r] eqn:E.
      cbn in H. subst r. apply token_attr_to_id_ok in E
        as (pre' & pro' & cs' & suf' & sp' & H1 & H2 & H3 & H4 & H5 & _).
      eauto 10.
    + intros ([pre' H1] & [pro' H2] & [cs' H3] & [suf' H4] & [sp' H5]).
      erewrite (proj2 (token_attr_to_id_ok tokenizer self _)); [reflexivity |].
      exists pre', pro', cs', suf', sp'. auto 10.
  - intros e H. destruct (token_attr_to_id tokenizer self) as [self' r] eqn:E.
    cbn in H. subst r. apply token_attr_to_id_keys_raises in E
      as (done & k & rest & _ & _ & Hk).
    eapply _token_attr_to_id_raises, Hk.
Qed.

Lemma same_outside_loop_refl (self : TemplateMeta) : same_outside_loop self self.
Proof. unfold same_outside_loop. split_and!; reflexivity. Qed.

Lemma same_outside_loop_trans (a b c : TemplateMeta) :
  same_outside_loop a b -> same_outside_loop b c -> same_outside_loop a c.
Proof.
  unfold same_outside_loop. intros H1 H2.
  destruct_and!. split_and!; congruence.
Qed.

Lemma setattr_key_outside (self : TemplateMeta) (k : key) (value : option Prompt) :
  k <> K_tool_prompt -> same_outside_loop self (setattr_key self k value).
Proof.
  intros Hk. unfold same_outside_loop.
  destruct k, value; cbn; split_and!; try reflexivity; congruence.
Qed.

Lemma token_attr_to_id_keys_outside (tokenizer : PreTrainedTokenizerBase)
    (keys : list key) (self : TemplateMeta) :
  K_tool_prompt ∉ keys ->
  same_outside_loop self (token_attr_to_id_keys tokenizer keys self).1.
Proof.
  revert self. induction keys as [| k keys IH]; intros self Hk;
    [apply same_outside_loop_refl |].
  apply not_elem_of_cons in Hk as [Hk Hkeys]. cbn -[_token_attr_to_id].
  destruct (_token_attr_to_id tokenizer (getattr_key self k)) as [v |];
    [| apply same_outside_loop_refl].
  apply (same_outside_loop_trans _ (setattr_key self k v));
    [apply setattr_key_outside; congruence | apply IH, Hkeys].
Qed.

(** X8: whether it returns or raises, resolution writes nothing but the
    five segment fields of its loop: the tool prompt, the system prompt, the
    stop words, the placeholder tokens, the default system and all flags of
    the instance stay as they were. *)
Theorem resolution_frame (tokenizer : PreTrainedTokenizerBase)
    (self : TemplateMeta) :
  same_outside_loop self (token_attr_to_id tokenizer self).1.
Proof.
  apply token_attr_to_id_keys_outside. unfold not. intros H.
  repeat (apply elem_of_cons in H as [H | H]; [discriminate |]).
  apply elem_of_nil in H. exact H.
Qed.

Lemma sub_v_to_id_resolves (tokenizer : PreTrainedTokenizerBase) (l l' : list token) :
  mapM (sub_v_to_id tokenizer) l = Ok l' ->
  Forall2 (token_resolves tokenizer) l l'.
Proof.
  intros H. apply mapM_result_Forall2 in H.
  eapply Forall2_impl; [exact H |]. intros t t' Ht.
  apply sub_v_to_id_resolved in Ht as (_ & _ & Ht).
  destruct t; [subst; reflexivity | exact Ht].
Qed.

Lemma v_to_id_resolves (tokenizer : PreTrainedTokenizerBase) (p p' : Prompt) :
  mapM (v_to_id tokenizer) p = Ok p' ->
  Forall2 (context_resolves tokenizer) p p'.
Proof.
  intros H. apply mapM_result_Forall2 in H.
  eapply Forall2_impl; [exact H |]. intros c c'.
  destruct c as [s | l]; cbn; [intros [= <-]; reflexivity |].
  destruct (mapM (sub_v_to_id tokenizer) l) as [l' |] eqn:Hl; cbn; [| discriminate].
  intros [= <-]. apply sub_v_to_id_resolves, Hl.
Qed.

Lemma _token_attr_to_id_resolves (tokenizer : PreTrainedTokenizerBase)
    (value value' : option Prompt) :
  _token_attr_to_id tokenizer value = Ok value' ->
  option_Forall2 (Forall2 (context_resolves tokenizer)) value value'.
Proof.
  destruct value as [p |]; cbn; [| intros [= <-]; constructor].
  destruct (mapM (v_to_id tokenizer) p) as [p' |] eqn:Hp; cbn; [| discriminate].
  intros [= <-]. constructor. apply v_to_id_resolves, Hp.
Qed.

(** X9: a resolution that returns keeps the shape of the five segment
    fields: each field keeps its elements in number and order, text is
    unchanged, and in a token list every integer stays and every name is
    replaced by the id the tokenizer has for it; an unset [chat_sep] or
    [system_prefix] stays unset. *)
Theorem resolution_elementwise (tokenizer : PreTrainedTokenizerBase)
    (self self' : TemplateMeta) :
  token_attr_to_id tokenizer self = (self', Ok tt) ->
  Forall2 (context_resolves tokenizer) (prefix self) (prefix self') /\
  Forall2 (context_resolves tokenizer) (prompt self) (prompt self') /\
  option_Forall2 (Forall2 (context_resolves tokenizer))
    (chat_sep self) (chat_sep self') /\
  Forall2 (context_resolves tokenizer) (suffix self) (suffix self') /\
  option_Forall2 (Forall2 (context_resolves tokenizer))
    (system_prefix self) (system_prefix self').
Proof.
  intros H. apply token_attr_to_id_ok in H
    as (pre' & pro' & cs' & suf' & sp' & H1 & H2 & H3 & H4 & H5 & ->). cbn.
  split_and!; eauto using v_to_id_resolves, _token_attr_to_id_resolves.
Qed.

Lemma resolution_elementwise_witness :
  Forall2 (context_resolves small_tokenizer)
    [CList [TStr "bos_token_id"]; CStr "{{QUERY}}"]
    [CList [TInt 1]; CStr "{{QUERY}}"].
Proof.
  apply (resolution_elementwise small_tokenizer bos_prompt_meta
           (token_attr_to_id small_tokenizer bos_prompt_meta).1).
  vm_compute. reflexivity.
Defined.

Lemma mapM_result_weaken {A B} (f g : A -> result B) (l : list A) (k : list B) :
  (forall x y, f x = Ok y -> g x = Ok y) ->
  mapM f l = Ok k -> mapM g l = Ok k.
Proof.
  intros Hfg H. apply mapM_result_Forall2 in H. apply mapM_result_Forall2.
  eapply Forall2_impl; [exact H | exact Hfg].
Qed.

Lemma v_to_id_weaken (tokenizer tokenizer' : PreTrainedTokenizerBase)
    (v v' : context) :
  tokenizer ⊆ tokenizer' ->
  v_to_id tokenizer v = Ok v' -> v_to_id tokenizer' v = Ok v'.
Proof.
  intros Hsub. destruct v as [s | l]; cbn; [auto |].
  destruct (mapM (sub_v_to_id tokenizer) l) as [l' |] eqn:Hl; cbn; [| discriminate].
  intros [= <-]. erewrite mapM_result_weaken; [reflexivity | | exact Hl].
  intros [i | name] t'; cbn; [auto |]. unfold getattr.
  destruct (tokenizer !! name) as [i |] eqn:Hn; cbn; [| discriminate].
  rewrite (lookup_weaken _ _ _ _ Hn Hsub). auto.
Qed.

Lemma _token_attr_to_id_weaken (tokenizer tokenizer' : PreTrainedTokenizerBase)
    (value value' : option Prompt) :
  tokenizer ⊆ tokenizer' ->
  _token_attr_to_id tokenizer value = Ok value' ->
  _token_attr_to_id tokenizer' value = Ok value'.
Proof.
  intros Hsub. destruct value as [p |]; cbn; [| auto].
  destruct (mapM (v_to_id tokenizer) p) as [p' |] eqn:Hp; cbn; [| discriminate].
  intros [= <-].
  erewrite mapM_result_weaken; [reflexivity | | exact Hp].
  intros v v'. apply v_to_id_weaken, Hsub.
Qed.

(** X10: a resolution that returns does not depend on the rest of the
    tokenizer: with any tokenizer that has the same attributes and more, it
    returns the same instance. *)
Theorem resolution_monotone (tokenizer tokenizer' : PreTrainedTokenizerBase)
    (self self' : TemplateMeta) :
  tokenizer ⊆ tokenizer' ->
  token_attr_to_id tokenizer self = (self', Ok tt) ->
  token_attr_to_id tokenizer' self = (self', Ok tt).
Proof.
  intros Hsub H. apply token_attr_to_id_ok in H
    as (pre' & pro' & cs' & suf' & sp' & H1 & H2 & H3 & H4 & H5 & ->).
  apply token_attr_to_id_ok. exists pre', pro', cs', suf', sp'.
  split_and!; try reflexivity;
    eauto using mapM_result_weaken, v_to_id_weaken, _token_attr_to_id_weaken.
Qed.

Lemma resolution_monotone_witness :
  token_attr_to_id (<["pad_token_id" := 0%Z]> small_tokenizer) bos_prompt_meta
    = ((token_attr_to_id small_tokenizer bos_prompt_meta).1, Ok tt).
Proof.
  apply (resolution_monotone small_tokenizer).
  - apply insert_subseteq. vm_compute. reflexivity.
  - vm_compute. reflexivity.
Defined.

(** X11: resolution is not atomic. When it raises, the instance is left
    with the fields before the failing one resolved (the loop had returned
    on them) and the failing field, on which [_token_attr_to_id] raises, and
    the later ones as they were. *)
Theorem resolution_partial_on_failure (tokenizer : PreTrainedTokenizerBase)
    (self self' : TemplateMeta) (e : exn) :
  token_attr_to_id tokenizer self = (self', Raise e) ->
  exists done k rest,
    loop_keys = done ++ k :: rest /\
    token_attr_to_id_keys tokenizer done self = (self', Ok tt) /\
    _token_attr_to_id tokenizer (getattr_key self' k) = Raise e /\
    Forall (fun k' => getattr_key self' k' = getattr_key self k') (k :: rest).
Proof.
  intros H. apply token_attr_to_id_keys_raises in H
    as (done & k & rest & Hkeys & Hdone & Hk).
  exists done, k, rest. split_and!; try assumption.
  fold loop_keys in Hkeys.
  assert (NoDup loop_keys) as Hnd
    by (apply (bool_decide_unpack _); vm_compute; exact I).
  rewrite Hkeys in Hnd. apply NoDup_app in Hnd as (_ & Hdisj & _).
  clear Hkeys Hk. revert self Hdone Hdisj.
  induction done as [| d done IH]; intros self Hdone Hdisj.
  - injection Hdone as <-. apply Forall_forall. reflexivity.
  - cbn -[_token_attr_to_id] in Hdone.
    destruct (_token_attr_to_id tokenizer (getattr_key self d)) as [v |];
      [| discriminate].
    assert (Forall (fun k' => getattr_key (setattr_key self d v) k'
                              = getattr_key self k') (k :: rest)) as Hstep.
    { apply Forall_forall. intros k' Hk'.
      assert (d <> k') as Hne.
      { intros ->. apply (Hdisj k'); [left |]; assumption. }
      destruct d, k', v; try reflexivity; congruence. }
    specialize (IH _ Hdone).
    eapply Forall_impl; [apply Forall_and; split; [apply IH | exact Hstep] |].
    + intros x Hx. apply (Hdisj x). right. exact Hx.
    + cbn. intros x [-> ->]. reflexivity.
Qed.

Lemma resolution_partial_on_failure_witness :
  exists done k rest,
    loop_keys = done ++ k :: rest /\
    token_attr_to_id_keys {[ "bos_token_id" := 1%Z ]} done bos_prompt_meta
      = ((token_attr_to_id {[ "bos_token_id" := 1%Z ]} bos_prompt_meta).1, Ok tt) /\
    _token_attr_to_id {[ "bos_token_id" := 1%Z ]}
      (getattr_key (token_attr_to_id {[ "bos_token_id" := 1%Z ]} bos_prompt_meta).1 k)
      = Raise AttributeError /\
    Forall (fun k' =>
              getattr_key (token_attr_to_id {[ "bos_token_id" := 1%Z ]}
                             bos_prompt_meta).1 k'
              = getattr_key bos_prompt_meta k') (k :: rest).
Proof.
  apply (resolution_partial_on_failure {[ "bos_token_id" := 1%Z ]} bos_prompt_meta).
  vm_compute. reflexivity.
Defined.

(** ** The registry and get_template *)

Section RegistryMore.

Context {Any : Type}.
Variable _init_template : Any -> init_args -> outcome Any.
Implicit Types (kwargs : gmap string Any) (reg : gmap string (@template_info Any)).

(** X12: a registration that returns makes [get_template] of that template
    type depend on the kwargs alone: it hands the ['template'] entry to
    [_init_template], and raises [KeyError] when the registration gave no
    such entry; the instance registered is not what it returns. For a
    template type that is not registered it raises [KeyError] as well. *)
Theorem get_template_after_register (tm : TemplateMeta) (exist_ok : bool)
    kwargs reg reg' (args : init_args) :
  register_template tm exist_ok kwargs reg = (reg', Ok tt) ->
  get_template _init_template (template_type tm) args reg'
    = match kwargs !! "template" with
      | Some template => _init_template template args
      | None => Throw (KeyError "template")
      end /\
  (forall other, reg' !! other = None ->
     get_template _init_template other args reg' = Throw (KeyError other)).
Proof.
  unfold register_template, get_template.
  destruct (negb exist_ok && _); [discriminate |]. intros [= <-]. split.
  - rewrite lookup_insert_eq. reflexivity.
  - intros other ->. reflexivity.
Qed.

(** X13: a registration, whether it returns or raises, changes nothing for
    the other template types: their entries, and so what [get_template]
    returns for them, are as before; and when it returns, the registered
    types are those of before and the new one. *)
Theorem register_template_frame (tm : TemplateMeta) (exist_ok : bool)
    kwargs reg (args : init_args) :
  let '(reg', r) := register_template tm exist_ok kwargs reg in
  (forall other, other <> template_type tm ->
     reg' !! other = reg !! other /\
     get_template _init_template other args reg'
       = get_template _init_template other args reg) /\
  (r = Ok tt -> dom reg' = {[ template_type tm ]} ∪ dom reg).
Proof.
  unfold register_template, get_template.
  destruct (negb exist_ok && _).
  - split; [auto | discriminate].
  - split.
    + intros other Hne. rewrite lookup_insert_ne by congruence. auto.
    + intros _. apply dom_insert_L.
Qed.

(** X14: registrations of two different template types commute: in either
    order each one returns or raises the same, and the registry ends the
    same. *)
Theorem register_template_commute (tm1 tm2 : TemplateMeta) (ok1 ok2 : bool)
    kwargs1 kwargs2 reg :
  template_type tm1 <> template_type tm2 ->
  let '(reg1, r1) := register_template tm1 ok1 kwargs1 reg in
  let '(reg12, r2) := register_template tm2 ok2 kwargs2 reg1 in
  let '(reg2, r2') := register_template tm2 ok2 kwargs2 reg in
  let '(reg21, r1') := register_template tm1 ok1 kwargs1 reg2 in
  reg12 = reg21 /\ r1 = r1' /\ r2 = r2'.
Proof.
  intros Hne. unfold register_template.
  destruct (negb ok1 && bool_decide (is_Some (reg !! template_type tm1))) eqn:E1;
    destruct (negb ok2 && bool_decide (is_Some (reg !! template_type tm2))) eqn:E2;
    rewrite ?lookup_insert_ne by congruence; rewrite ?E1, ?E2;
    split_and!; try reflexivity.
  apply insert_insert_ne. congruence.
Qed.

(** X15: with [exist_ok] the last registration of a template type wins: it
    returns, and the registry is as if the earlier registration of that
    type had not been made. *)
Theorem register_template_overwrite (tm1 tm2 : TemplateMeta) (ok1 : bool)
    kwargs1 kwargs2 reg :
  template_type tm1 = template_type tm2 ->
  register_template tm2 true kwargs2
    (register_template tm1 ok1 kwargs1 reg).1
  = register_template tm2 true kwargs2 reg.
Proof.
  intros Heq. unfold register_template. cbn.
  destruct (negb ok1 && _); cbn; [reflexivity |].
  rewrite Heq, insert_insert_eq. reflexivity.
Qed.

End RegistryMore.

Lemma get_template_after_register_witness :
  get_template (fun (t : string) (_ : init_args) => Return t) "plain"
    (mkInitArgs small_tokenizer None None "delete" "default" (-1) 1 "react_en")
    (<["plain" := mkInfo no_system_meta ∅]> ∅)
  = Throw (KeyError "template").
Proof.
  exact (proj1 (get_template_after_register
                  (fun (t : string) (_ : init_args) => Return t)
                  no_system_meta false ∅ ∅ _ _ eq_refl)).
Defined.

Lemma register_template_commute_witness :
  let '(reg1, r1) := register_template (Any := unit) no_system_meta false ∅ ∅ in
  let '(reg12, r2) := register_template both_meta_sample false ∅ reg1 in
  let '(reg2, r2') := register_template (Any := unit) both_meta_sample false ∅ ∅ in
  let '(reg21, r1') := register_template no_system_meta false ∅ reg2 in
  reg12 = reg21 /\ r1 = r1' /\ r2 = r2'.
Proof.
  apply (register_template_commute (Any := unit) no_system_meta both_meta_sample).
  discriminate.
Defined.

Lemma register_template_overwrite_witness :
  register_template (Any := unit) no_system_meta true ∅
    (register_template bos_prompt_meta false ∅ ∅).1
  = register_template no_system_meta true ∅ ∅.
Proof.
  apply (register_template_overwrite (Any := unit) bos_prompt_meta no_system_meta).
  reflexivity.
Defined.

(** ** MeanMetric, further *)

Section MeanMetricSafe.

Context {num : Type}.
Variable add : num -> num -> num.
Variable int_zero : num.
Variable float_zero : num.
Variable truediv : num -> Z -> num.

Lemma count_fold_update (args : list update_arg) (self : MeanMetric) :
  count (fold_left (update add int_zero) args self)
    = (count self + Z.of_nat (List.length (items_seen (num := num) args)))%Z.
Proof.
  revert self. induction args as [| arg args IH]; intros self.
  - cbn. lia.
  - cbn [fold_left]. rewrite IH. unfold items_seen. cbn [map concat].
    rewrite length_app. destruct arg; cbn; lia.
Qed.

(** X16: whatever the arithmetic of the numbers, [compute] never raises:
    the count is the number of items seen, never negative, and the division
    is made only when it is positive. *)
Theorem mean_compute_never_raises (args : list update_arg) :
  count (updates add int_zero float_zero args)
    = Z.of_nat (List.length (items_seen (num := num) args)) /\
  exists value,
    compute int_zero truediv (updates add int_zero float_zero args) = Ok value.
Proof.
  unfold updates. rewrite count_fold_update. cbn [count MeanMetric_init].
  split; [lia |]. unfold compute. rewrite count_fold_update.
  cbn [count MeanMetric_init].
  destruct (0 <? _)%Z eqn:Hpos; [| eauto].
  apply Z.ltb_lt in Hpos. unfold div.
  destruct (_ =? 0)%Z eqn:Hz; [apply Z.eqb_eq in Hz; lia | eauto].
Qed.

End MeanMetricSafe.

(** ** Metric: add_state and reset *)

Section MetricProps.

Context {V W : Type}.
Implicit Types (self : @Metric V W) (d : list (string * V))
  (df : list (string * option (W -> outcome V * W))).

Lemma dict_get_None {A} (k : string) (l : list (string * A)) :
  dict_get k l = None <-> k ∉ l.*1.
Proof.
  induction l as [| [k' v'] l IH]; cbn.
  - split; [intros _; apply not_elem_of_nil | reflexivity].
  - rewrite not_elem_of_cons. destruct (decide (k = k')); [| tauto].
    split; [discriminate | tauto].
Qed.

Lemma dict_has_get {A} (k : string) (l : list (string * A)) :
  dict_has k l = true <-> is_Some (dict_get k l).
Proof.
  unfold dict_has. rewrite bool_decide_eq_true, <- not_eq_None_Some, dict_get_None.
  split; [tauto |]. intros H. destruct (decide (k ∈ l.*1)); tauto.
Qed.

Lemma dict_get_set {A} (k k' : string) (v : A) (l : list (string * A)) :
  dict_get k' (dict_set k v l) = if decide (k' = k) then Some v else dict_get k' l.
Proof.
  induction l as [| [k0 v0] l IH]; cbn.
  - destruct (decide (k' = k)); reflexivity.
  - destruct (decide (k = k0)) as [<- | Hne]; cbn.
    + destruct (decide (k' = k)); reflexivity.
    + rewrite IH. destruct (decide (k' = k0)) as [-> | ?];
        [rewrite decide_False by congruence |]; reflexivity.
Qed.

Lemma dict_set_keys_NoDup {A} (k : string) (v : A) (l : list (string * A)) :
  NoDup l.*1 -> NoDup (dict_set k v l).*1.
Proof.
  induction l as [| [k0 v0] l IH]; cbn; [intros _; repeat constructor; set_solver |].
  intros Hnd. apply NoDup_cons in Hnd as [Hk0 Hnd].
  destruct (decide (k = k0)) as [<- | Hne]; cbn.
  - apply NoDup_cons. auto.
  - apply NoDup_cons. split; [| auto].
    rewrite <- dict_get_None, dict_get_set, decide_False by congruence.
    apply dict_get_None, Hk0.
Qed.

Lemma setattr_inv self (name : string) (value : V) self' (r : outcome unit) :
  setattr self name value = (self', r) ->
  (setattr_refused name = None /\ self' = set_state name value self /\ r = Return tt)
  \/ (exists e, setattr_refused name = Some e /\ self' = self /\ r = Throw e).
Proof.
  unfold setattr. destruct (setattr_refused name) as [e |]; intros [= <- <-];
    [right | left]; eauto.
Qed.

Lemma reset_defaults_spec d self self' (r : outcome unit) :
  NoDup d.*1 ->
  reset_defaults d self = (self', r) ->
  tables self' = tables self /\
  (forall name, name ∉ d.*1 -> attrs self' !! name = attrs self !! name) /\
  (r = Return tt ->
   forall name, attrs self' !! name = match dict_get name d with
                                      | Some v => Some v
                                      | None => attrs self !! name
                                      end) /\
  (forall e, r = Throw e ->
     exists name, name ∈ d.*1 /\ setattr_refused name = Some e) /\
  ((forall name, name ∈ d.*1 -> setattr_refused name = None) -> r = Return tt).
Proof.
  revert self. induction d as [| [k v] d IH]; intros self Hnd; cbn.
  - intros [= <- <-]. split_and!; auto; discriminate.
  - cbn in Hnd. apply NoDup_cons in Hnd as [Hk Hnd].
    destruct (setattr self k v) as [self1 r1] eqn:Hset.
    apply setattr_inv in Hset as [(Hname & -> & ->) | (e & Hname & -> & ->)].
    + intros Hrun. destruct (IH _ Hnd Hrun) as (Ht & Ha & Hr & He & Hok).
      split_and!.
      * exact Ht.
      * intros name Hn. apply not_elem_of_cons in Hn as [Hne Hn].
        rewrite (Ha name Hn). cbn. apply lookup_insert_ne. congruence.
      * intros Hret name. rewrite (Hr Hret name). cbn.
        destruct (decide (name = k)) as [-> | Hne].
        -- apply dict_get_None in Hk. rewrite Hk. apply lookup_insert_eq.
        -- destruct (dict_get name d); [reflexivity |].
           apply lookup_insert_ne. congruence.
      * intros e Hthrow. destruct (He e Hthrow) as (name & Hn & Hrefused).
        exists name. split; [apply elem_of_cons; auto | exact Hrefused].
      * intros Hall. apply Hok. intros name Hn. apply Hall, elem_of_cons. auto.
    + intros [= <- <-]. split_and!; auto; try discriminate.
      * intros e' [= <-]. exists k. split; [apply elem_of_cons; auto | exact Hname].
      * intros Hall. rewrite (Hall k) in Hname by (apply elem_of_cons; auto).
        discriminate.
Qed.

Lemma reset_factories_spec df self (w : W) self' (r : outcome unit) (w' : W) :
  reset_factories df self w = (self', r, w') ->
  tables self' = tables self /\
  (forall name, name ∉ df.*1 -> attrs self' !! name = attrs self !! name) /\
  (forall e, r = Throw e ->
     (exists name, name ∈ df.*1 /\ setattr_refused name = Some e) \/
     (exists name, (name, None) ∈ df /\ e = TypeError) \/
     (exists name f w0 w1, (name, Some f) ∈ df /\ f w0 = (Throw e, w1))) /\
  ((forall name, name ∈ df.*1 -> setattr_refused name = None) ->
   (forall name f, (name, f) ∈ df ->
      exists g, f = Some g /\ forall w0, exists v w1, g w0 = (Return v, w1)) ->
   r = Return tt).
Proof.
  revert self w. induction df as [| [k [f |]] df IH]; intros self w; cbn.
  - intros [= <- <- <-]. split_and!; auto; discriminate.
  - destruct (f w) as [[value | e] w1] eqn:Hf.
    + destruct (setattr self k value) as [self1 r1] eqn:Hset.
      apply setattr_inv in Hset as [(Hname & -> & ->) | (e & Hname & -> & ->)].
      * intros Hrun. destruct (IH _ _ Hrun) as (Ht & Ha & He & Hok). split_and!.
        -- exact Ht.
        -- intros name Hn. apply not_elem_of_cons in Hn as [Hne Hn].
           rewrite (Ha name Hn). cbn. apply lookup_insert_ne. congruence.
        -- intros e Hthrow.
           destruct (He e Hthrow)
             as [(name & Hn & H) | [(name & Hn & H) | (name & g & w0 & w2 & Hn & H)]].
           ++ left. exists name. split; [apply elem_of_cons; auto | exact H].
           ++ right. left. exists name. split; [apply elem_of_cons; auto | exact H].
           ++ right. right. exists name, g, w0, w2.
              split; [apply elem_of_cons; auto | exact H].
        -- intros Hall Hcall. apply Hok.
           ++ intros name Hn. apply Hall, elem_of_cons. auto.
           ++ intros name g Hn. apply (Hcall name g), elem_of_cons. auto.
      * intros [= <- <- <-]. split_and!; auto.
        -- intros e' [= <-]. left. exists k.
           split; [apply elem_of_cons; auto | exact Hname].
        -- intros Hall _. rewrite (Hall k) in Hname by (apply elem_of_cons; auto).
           discriminate.
    + intros [= <- <- <-]. split_and!; auto.
      * intros e' [= <-]. right. right. exists k, f, w, w1.
        split; [apply elem_of_cons; auto | exact Hf].
      * intros _ Hcall.
        destruct (Hcall k (Some f)) as (g & [= <-] & Hg); [apply elem_of_cons; auto |].
        destruct (Hg w) as (v & w2 & Hv). congruence.
  - intros [= <- <- <-]. split_and!; auto.
    + intros e' [= <-]. right. left. exists k.
      split; [apply elem_of_cons; auto | reflexivity].
    + intros _ Hcall.
      destruct (Hcall k None) as (g & Hg & _); [apply elem_of_cons; auto |].
      discriminate.
Qed.

(** X18: [reset] keeps the tables and leaves every attribute that is no
    registered state as it was. When [setattr] accepts the names of the
    defaults, every state registered with a default (and with no factory)
    is back at that default, whatever it had become and whatever the
    factories do afterwards. [reset] raises only what [setattr] raises for
    a registered name, [TypeError] for a registered factory that cannot be
    called, or what a registered factory raises; it returns when every
    registered name is accepted and every factory is a callable that
    returns. *)
Theorem reset_restores_defaults self d df (w : W) self' (r : outcome unit) (w' : W) :
  tables self = Some (d, df) ->
  NoDup d.*1 ->
  reset self w = Some (self', r, w') ->
  tables self' = tables self /\
  (forall name, name ∉ d.*1 -> name ∉ df.*1 ->
     attrs self' !! name = attrs self !! name) /\
  ((forall name, name ∈ d.*1 -> setattr_refused name = None) ->
   forall name, name ∉ df.*1 ->
     attrs self' !! name = match dict_get name d with
                           | Some v => Some v
                           | None => attrs self !! name
                           end) /\
  (forall e, r = Throw e ->
     (exists name, name ∈ d.*1 ++ df.*1 /\ setattr_refused name = Some e) \/
     (exists name, (name, None) ∈ df /\ e = TypeError) \/
     (exists name f w0 w1, (name, Some f) ∈ df /\ f w0 = (Throw e, w1))) /\
  ((forall name, name ∈ d.*1 ++ df.*1 -> setattr_refused name = None) ->
   (forall name f, (name, f) ∈ df ->
      exists g, f = Some g /\ forall w0, exists v w1, g w0 = (Return v, w1)) ->
   r = Return tt).
Proof.
  intros Ht Hnd. unfold reset. rewrite Ht.
  destruct (existsb reserved _); [discriminate |].
  destruct (reset_defaults d self) as [self1 r1] eqn:Hd.
  destruct (reset_defaults_spec d self self1 r1 Hnd Hd)
    as (Ht1 & Ha1 & Hr1 & He1 & Hok1).
  destruct r1 as [[] | e1].
  - intros [= Hf]. destruct (reset_factories_spec df self1 w self' r w' Hf)
      as (Ht2 & Ha2 & He2 & Hok2).
    split_and!.
    + congruence.
    + intros name Hn1 Hn2. rewrite (Ha2 name Hn2). apply Ha1, Hn1.
    + intros _ name Hn. rewrite (Ha2 name Hn). apply Hr1. reflexivity.
    + intros e Hthrow.
      destruct (He2 e Hthrow) as [(name & Hn & H) | [H | H]]; [left | auto | auto].
      exists name. split; [apply elem_of_app; auto | exact H].
    + intros Hall Hcall. apply Hok2; [| exact Hcall].
      intros name Hn. apply Hall, elem_of_app. auto.
  - intros [= <- <- <-]. split_and!.
    + congruence.
    + intros name Hn _. apply Ha1, Hn.
    + intros Hall. specialize (Hok1 Hall). discriminate.
    + intros e [= <-]. left. destruct (He1 e1 eq_refl) as (name & Hn & H).
      exists name. split; [apply elem_of_app; auto | exact H].
    + intros Hall _. exfalso.
      assert (Throw e1 = Return tt :> outcome unit) as Habs; [| discriminate Habs].
      apply Hok1. intros name Hn. apply Hall, elem_of_app. auto.
Qed.

(** X19: registering a state again. After an [add_state] with a default
    has returned, the attribute holds the default; a second [add_state] of
    that name with another default returns and replaces both the attribute
    and the default that [reset] restores; one with no default raises
    [AssertionError], without calling the factory, and leaves the attribute
    as it was. *)
Theorem add_state_again self (name : string) (v1 : V)
    (f1 : option (W -> outcome V * W)) (w : W) self1 w1 :
  add_state self name (Some v1) f1 w = Some (self1, Return tt, w1) ->
  attrs self1 !! name = Some v1 /\
  (forall v2 f2 w2, exists self2 d2 df2,
     add_state self1 name (Some v2) f2 w2 = Some (self2, Return tt, w2) /\
     attrs self2 !! name = Some v2 /\
     tables self2 = Some (d2, df2) /\ dict_get name d2 = Some v2 /\
     dict_has name df2 = false) /\
  (forall f2 w2, exists self2,
     add_state self1 name None f2 w2
       = Some (self2, Throw (Exn AssertionError), w2) /\
     attrs self2 = attrs self1).
Proof.
  unfold add_state, setattr. destruct (reserved name); [discriminate |].
  destruct (tables self) as [[d df] |] eqn:Ht; [| discriminate].
  destruct (dict_has name df) eqn:Hdf; [discriminate |].
  destruct (setattr_refused name); [discriminate |].
  intros [= <- <-]. cbn. split; [apply lookup_insert_eq |]. split.
  - intros v2 f2 w2. rewrite Hdf. do 3 eexists. split; [reflexivity |]. cbn.
    split; [apply lookup_insert_eq |]. split; [reflexivity |].
    split; [| exact Hdf]. rewrite dict_get_set, decide_True; reflexivity.
  - intros f2 w2.
    assert (dict_has name (dict_set name v1 d) = true) as ->.
    { apply dict_has_get. rewrite dict_get_set, decide_True; eauto. }
    eexists. split; reflexivity.
Qed.

End MetricProps.

Lemma reset_restores_defaults_witness :
  let self : @Metric Z Z :=
    mkMetric
      (Some ([("count", 0%Z)],
             [("start", Some (fun now : Z => (Return now, (now + 1)%Z)))]))
      {[ "count" := 7%Z; "name" := 1%Z; "start" := 3%Z ]} in
  exists self',
    reset self 10%Z = Some (self', Return tt, 11%Z) /\
    attrs self' !! "count" = Some 0%Z /\ attrs self' !! "name" = Some 1%Z.
Proof.
  intros self.
  exists (set_state "start" 10%Z (set_state "count" 0%Z self)).
  split; [reflexivity |].
  destruct (reset_restores_defaults self [("count", 0%Z)]
              [("start", Some (fun now : Z => (Return now, (now + 1)%Z)))] 10%Z
              (set_state "start" 10%Z (set_state "count" 0%Z self))
              (Return tt) 11%Z eq_refl)
    as (_ & Hother & Hdefault & _);
    [repeat constructor; set_solver | reflexivity |].
  split.
  - apply Hdefault.
    + intros name Hn. apply list_elem_of_singleton in Hn as ->. reflexivity.
    + intros Hn. apply list_elem_of_singleton in Hn. discriminate.
  - rewrite (Hother "name"); [reflexivity | |];
      intros Hn; apply list_elem_of_singleton in Hn; discriminate.
Defined.

Lemma add_state_again_witness :
  let self : @Metric Z unit := mkMetric (Some ([], [])) ∅ in
  exists self1 self2,
    add_state self "count" (Some 0%Z) None tt = Some (self1, Return tt, tt) /\
    attrs self1 !! "count" = Some 0%Z /\
    add_state self1 "count" None (Some (fun w => (Return 5%Z, w))) tt
      = Some (self2, Throw (Exn AssertionError), tt) /\
    attrs self2 = attrs self1.
Proof.
  intros self.
  destruct (add_state_again self "count" 0%Z None tt _ _ eq_refl)
    as (H1 & _ & H3).
  destruct (H3 (Some (fun w => (Return 5%Z, w))) tt) as (self2 & H4 & H5).
  eexists _, self2. split; [reflexivity |]. auto.
Defined.

Section MeanMetricReset.

Context {num : Type}.
Variable float_zero : num.

(** X20: [MeanMetric.__init__] returns an object whose attributes are the
    state [0.] and the count [0]; and whatever the attributes of a
    [MeanMetric] have become, [reset] returns with state and count as after
    [__init__], the other attributes untouched. *)
Theorem mean_metric_reset :
  exists self0,
    MeanMetric_new float_zero = Some (self0, Return tt, tt) /\
    as_MeanMetric self0 = Some (MeanMetric_init float_zero) /\
    forall a : gmap string (@mean_value num), exists self',
      reset (mkMetric (tables self0) a) tt = Some (self', Return tt, tt) /\
      as_MeanMetric self' = Some (MeanMetric_init float_zero) /\
      forall name, name <> "state" -> name <> "count" ->
        attrs self' !! name = a !! name.
Proof.
  exists (mkMetric (Some ([("state", PNum float_zero); ("count", PInt 0)], []))
            (<["count" := PInt 0]> (<["state" := PNum float_zero]> ∅))).
  split; [vm_compute; reflexivity |]. split; [vm_compute; reflexivity |].
  intros a. cbn [tables].
  exists (mkMetric (Some ([("state", PNum float_zero); ("count", PInt 0)], []))
            (<["count" := PInt 0]> (<["state" := PNum float_zero]> a))).
  split; [reflexivity |]. split.
  - unfold as_MeanMetric. cbn [attrs].
    rewrite lookup_insert_ne by discriminate.
    rewrite !lookup_insert_eq. reflexivity.
  - intros name H1 H2. cbn. rewrite !lookup_insert_ne by congruence.
    reflexivity.
Qed.

End MeanMetricReset.

#[local] Set Warnings "-clear-no-such-hyp".

(** ** InferStats *)

Section InferStatsProps.

Context {T num : Type}.
Variable elapsed : T -> T -> num.
Variable is_zero : num -> bool.
Variable int_truediv : Z -> num -> num.

Lemma sum_values_insert (m : gmap string Z) (k : string) (v : Z) :
  m !! k = None -> sum_values (<[k := v]> m) = (sum_values m + v)%Z.
Proof.
  intros Hk. unfold sum_values.
  rewrite map_fold_insert_L; [reflexivity | | exact Hk].
  intros. lia.
Qed.

Lemma infer_updates_start (outs : list infer_output) (s : @InferStats T) :
  start_runtime (fold_left infer_update outs s) = start_runtime s.
Proof.
  revert s. induction outs as [| o outs IH]; intros s; [reflexivity |].
  cbn [fold_left]. rewrite IH. reflexivity.
Qed.

Lemma infer_updates_other (outs : list infer_output) (s : @InferStats T)
    (id : string) :
  id ∉ output_id <$> outs ->
  num_prompt_tokens (fold_left infer_update outs s) !! id
    = num_prompt_tokens s !! id /\
  num_generated_tokens (fold_left infer_update outs s) !! id
    = num_generated_tokens s !! id.
Proof.
  revert s. induction outs as [| o outs IH]; intros s Hid; [auto |].
  rewrite fmap_cons in Hid. apply not_elem_of_cons in Hid as [Hne Hid].
  cbn [fold_left]. destruct (IH (infer_update s o) Hid) as (-> & ->).
  cbn. rewrite !lookup_insert_ne by congruence. auto.
Qed.

Lemma infer_updates_distinct (outs : list infer_output) (s : @InferStats T) :
  NoDup (output_id <$> outs) ->
  (forall o, o ∈ outs ->
     num_prompt_tokens s !! output_id o = None /\
     num_generated_tokens s !! output_id o = None) ->
  let s' := fold_left infer_update outs s in
  size (num_generated_tokens s')
    = size (num_generated_tokens s) + List.length outs /\
  sum_values (num_generated_tokens s')
    = (sum_values (num_generated_tokens s)
       + foldr Z.add 0 (completion_tokens <$> outs))%Z /\
  sum_values (num_prompt_tokens s')
    = (sum_values (num_prompt_tokens s)
       + foldr Z.add 0 (prompt_tokens <$> outs))%Z.
Proof.
  revert s. induction outs as [| o outs IH]; intros s Hnd Hnew.
  - cbn. split_and!; lia.
  - rewrite fmap_cons in Hnd. apply NoDup_cons in Hnd as [Ho Hnd].
    destruct (Hnew o) as [Hp Hg]; [left |].
    cbn [fold_left]. destruct (IH (infer_update s o) Hnd) as (H1 & H2 & H3).
    { intros o' Ho'. destruct (Hnew o') as [Hp' Hg']; [right; exact Ho' |].
      assert (output_id o <> output_id o') as Hne.
      { intros Heq. apply Ho. rewrite Heq. apply list_elem_of_fmap. eauto. }
      cbn. rewrite !lookup_insert_ne by exact Hne. auto. }
    cbn zeta. rewrite H1, H2, H3. cbn.
    rewrite map_size_insert_None by exact Hg.
    rewrite !sum_values_insert by assumption. split_and!; lia.
Qed.

(** X21: for outputs of pairwise different ids, [compute] reports their
    number as [num_samples] and the sums of their token counts, with the
    two rates divided by the runtime; the division is not guarded: when the
    runtime is zero [compute] raises [ZeroDivisionError]. *)
Theorem infer_stats_report (outs : list infer_output) (start now : T) :
  NoDup (output_id <$> outs) ->
  let runtime := elapsed now start in
  let tokens := foldr Z.add 0%Z (completion_tokens <$> outs) in
  infer_compute elapsed is_zero int_truediv
    (fold_left infer_update outs (InferStats_init start)) now
  = if is_zero runtime then Raise ZeroDivisionError
    else Ok (mkReport (foldr Z.add 0%Z (prompt_tokens <$> outs)) tokens
               (Z.of_nat (List.length outs)) runtime
               (int_truediv (Z.of_nat (List.length outs)) runtime)
               (int_truediv tokens runtime)).
Proof.
  intros Hnd runtime tokens.
  destruct (infer_updates_distinct outs (InferStats_init start) Hnd)
    as (H1 & H2 & H3).
  { intros o _. cbn. rewrite !lookup_empty. auto. }
  unfold infer_compute, int_div. rewrite infer_updates_start. cbn [start_runtime InferStats_init].
  fold runtime. destruct (is_zero runtime); [reflexivity |]. cbn.
  cbn in H1, H2, H3. rewrite H1, H2, H3. unfold sum_values.
  rewrite !map_fold_empty, map_size_empty. reflexivity.
Qed.

Lemma infer_updates_dom (outs : list infer_output) (s : @InferStats T) :
  dom (num_generated_tokens (fold_left infer_update outs s))
    = list_to_set (output_id <$> outs) ∪ dom (num_generated_tokens s) /\
  dom (num_prompt_tokens (fold_left infer_update outs s))
    = list_to_set (output_id <$> outs) ∪ dom (num_prompt_tokens s).
Proof.
  revert s. induction outs as [| o outs IH]; intros s; cbn [fold_left].
  - cbn. split; set_solver.
  - destruct (IH (infer_update s o)) as [-> ->]. cbn.
    rewrite !dom_insert_L. split; set_solver.
Qed.

(** X22: an output whose id was reported before replaces the earlier one
    instead of adding to it: after any run of updates the ids counted are
    the different ids seen, and each id carries the token counts of the
    last output reported under it. *)
Theorem infer_stats_last_wins (outs : list infer_output) (start : T) :
  let s := fold_left infer_update outs (InferStats_init start) in
  dom (num_generated_tokens s) = list_to_set (output_id <$> outs) /\
  dom (num_prompt_tokens s) = list_to_set (output_id <$> outs) /\
  forall outs1 o outs2,
    outs = outs1 ++ o :: outs2 ->
    output_id o ∉ output_id <$> outs2 ->
    num_prompt_tokens s !! output_id o = Some (prompt_tokens o) /\
    num_generated_tokens s !! output_id o = Some (completion_tokens o).
Proof.
  intros s. subst s.
  destruct (infer_updates_dom outs (InferStats_init start)) as [-> ->].
  cbn. rewrite !dom_empty_L, !(right_id_L ∅ (∪)).
  split_and!; try reflexivity.
  intros outs1 o outs2 -> Hlast.
  rewrite fold_left_app. cbn [fold_left].
  destruct (infer_updates_other outs2
              (infer_update (fold_left infer_update outs1 (InferStats_init start)) o)
              (output_id o) Hlast) as [-> ->].
  cbn. rewrite !lookup_insert_eq. auto.
Qed.

End InferStatsProps.

Lemma infer_stats_report_witness :
  infer_compute (T := Z) (fun now start => (now - start)%Z) (Z.eqb 0) Z.div
    (fold_left infer_update [mkOutput "a" 3 5; mkOutput "b" 4 6]
       (InferStats_init 10%Z)) 12%Z
  = Ok (mkReport (num := Z) 7 11 2 2%Z 1%Z 5%Z).
Proof.
  apply (infer_stats_report (T := Z) (fun now start => (now - start)%Z)
           (Z.eqb 0) Z.div [mkOutput "a" 3 5; mkOutput "b" 4 6] 10%Z 12%Z).
  apply (bool_decide_unpack _). vm_compute. exact I.
Defined.

(** ** Construction, further *)

(** X23: the default system that a constructed instance holds passes the
    instance's own [check_system], which returns it unchanged: a template
    can always render its own default. *)
Theorem default_system_passes_check (f : Fields) (m : TemplateMeta) :
  TemplateMeta_new f = Ok m ->
  exists s, default_system m = Some s /\
            check_system (support_system m) (default_system m) = Ok s.
Proof.
  intros H. apply post_init_inv in H as (pre & ds & _ & Hcs & ->). cbn.
  exists ds. split; [reflexivity |].
  apply check_system_inv in Hcs as [-> Hs]. unfold check_system.
  destruct (default "" (default_system f)) as [| c s] eqn:E; [reflexivity |].
  cbn. rewrite Hs by discriminate. reflexivity.
Qed.

Lemma default_system_passes_check_witness :
  exists s, Some "You are helpful." = Some s /\
    check_system true (Some "You are helpful.") = Ok s.
Proof.
  exact (default_system_passes_check
           (set_default_system (Some "You are helpful.") chatml_fields)
           (mkTemplateMeta
              (mkFields "plain" [CStr "<|im_start|>system <|im_end|>"]
                 (prompt chatml_fields) None [CList [TStr "eos_token_id"]]
                 Template (Some (prompt chatml_fields))
                 (Some (prefix chatml_fields)) false (Some "You are helpful.")
                 ([] : list Word) ([] : list token) true "react_en" true)
              false None true false)
           eq_refl).
Defined.

(** ** Construction on the store: what is shared *)

Lemma post_init_tail_shape {P W T} (f : Fields_of P W T) (b : bool)
    (g : TemplateMeta_of P W T) :
  post_init_tail f b = Ok g ->
  prefix g = prefix f /\ prompt g = prompt f /\ chat_sep g = chat_sep f /\
  suffix g = suffix f /\ system_prefix g = system_prefix f /\
  stop_words g = stop_words f /\ placeholder_tokens g = placeholder_tokens f /\
  tool_prompt g = (if is_None (tool_prompt f) then Some (prompt f)
                   else tool_prompt f) /\
  is_post_system g = b /\
  system_prompt g = (if b then Some (prompt f) else None).
Proof.
  unfold post_init_tail. destruct (check_system _ _); cbn; [| discriminate].
  intros [= <-]. destruct f as [? ? ? ? ? ? tp ? ? ? ? ? ? ? ?]. cbn.
  destruct tp; cbn; split_and!; reflexivity.
Qed.

Lemma post_init_rest_ref_shape (h h' : store) (f : FieldsRef) (p : Prompt)
    (g : TemplateMetaRef) :
  read_list h (prompt f) = Some p ->
  post_init_rest_ref f h = Some (Ok g, h') ->
  (exists k, h' = h ++ k) /\
  chat_sep g = chat_sep f /\ suffix g = suffix f /\
  stop_words g = stop_words f /\ placeholder_tokens g = placeholder_tokens f /\
  prefix g = prefix f /\ system_prefix g = system_prefix f /\
  (tool_prompt f = None -> tool_prompt g = Some (prompt g)) /\
  (is_post_system g = true -> system_prompt g = Some (prompt g)) /\
  (if _has_system p then List.length h <= prompt g else prompt g = prompt f).
Proof.
  intros Hpro Hrest.
  unfold post_init_rest_ref, mbind, heapM_bind, _has_system_ref in Hrest.
  rewrite Hpro in Hrest. cbn in Hrest.
  destruct (_has_system p).
  - unfold filter_system_ref, mbind, heapM_bind, get_list, new, lift in Hrest.
    apply read_list_inv in Hpro as (xs & Hxs & _). rewrite Hxs in Hrest.
    cbn in Hrest.
    destruct (post_init_tail _ true) as [g' |] eqn:Htail; [| discriminate].
    injection Hrest as <- <-.
    apply post_init_tail_shape in Htail
      as (T1 & T2 & T3 & T4 & T5 & T6 & T7 & T8 & T9 & T10).
    destruct f. cbn in *. rewrite T2. split_and!; eauto.
    intros ->. exact T8.
  - unfold mret, heapM_ret, lift in Hrest.
    destruct (post_init_tail f false) as [g' |] eqn:Htail; [| discriminate].
    injection Hrest as <- <-.
    apply post_init_tail_shape in Htail
      as (T1 & T2 & T3 & T4 & T5 & T6 & T7 & T8 & T9 & T10).
    rewrite T2. split_and!; auto.
    + exists []. symmetry. apply app_nil_r.
    + intros Htp. rewrite T8, Htp. reflexivity.
    + congruence.
Qed.

(** X24: the constructor does not copy the lists it is given. On the
    store it writes no existing object; the instance holds the very
    [chat_sep], [suffix], [stop_words] and [placeholder_tokens] objects
    passed in; a [tool_prompt] left out is the same object as [prompt], and
    so is [system_prompt] of a post-system template; a prefix that embeds
    the placeholder becomes [system_prefix] as the same object, and
    [prefix] is then a new list, as is a [prompt] that lost elements;
    otherwise [prefix] and [prompt] are the objects passed in. *)
Theorem constructor_shares_lists (h h' : store) (f : FieldsRef) (vf : Fields)
    (g : TemplateMetaRef) :
  read_fields h f = Some vf ->
  __post_init___ref f h = Some (Ok g, h') ->
  (exists k, h' = h ++ k) /\
  chat_sep g = chat_sep f /\ suffix g = suffix f /\
  stop_words g = stop_words f /\ placeholder_tokens g = placeholder_tokens f /\
  (tool_prompt f = None -> tool_prompt g = Some (prompt g)) /\
  (is_post_system g = true -> system_prompt g = Some (prompt g)) /\
  (if _has_system (prefix vf)
   then system_prefix g = Some (prefix f) /\ List.length h <= prefix g
   else system_prefix g = system_prefix f /\ prefix g = prefix f) /\
  (if _has_system (prompt vf)
   then List.length h <= prompt g
   else prompt g = prompt f).
Proof.
  intros Hread Hrun.
  assert (read_list h (prefix f) = Some (prefix vf)) as Hpre
    by (pose proof Hread as H'; invert_read_fields H'; assumption).
  assert (read_list h (prompt f) = Some (prompt vf)) as Hpro
    by (pose proof Hread as H'; invert_read_fields H'; assumption).
  clear Hread. rewrite post_init_ref_unfold in Hrun.
  destruct f as [tt pre pro cs suf cls tp sp bos ds sw pt skp dtp ss].
  cbn [prefix prompt chat_sep suffix stop_words placeholder_tokens tool_prompt
       system_prefix] in *.
  unfold mbind at 1, heapM_bind at 1, _has_system_ref in Hrun.
  rewrite Hpre in Hrun. cbn [mbind option_bind] in Hrun.
  destruct (_has_system (prefix vf)).
  - cbv [mbind heapM_bind lift _replace_system_ref get_list new mret heapM_ret]
      in Hrun.
    destruct (assert (is_None sp)); [| discriminate].
    apply read_list_inv in Hpre as (xs & Hxs & _). rewrite Hxs in Hrun.
    destruct (mapM replace_system_item xs) as [ys |]; [| discriminate].
    apply (post_init_rest_ref_shape _ _ _ (prompt vf)) in Hrun
      as ([k ->] & R1 & R2 & R3 & R4 & R5 & R6 & R7 & R8 & R9);
      [| apply read_list_extend, Hpro].
    cbn in *. split; [exists ([OList ys] ++ k); apply eq_sym, app_assoc |].
    split_and!; auto; try lia.
    destruct (_has_system (prompt vf)); [| exact R9].
    rewrite length_app in R9. lia.
  - cbv [mbind heapM_bind mret heapM_ret] in Hrun.
    apply (post_init_rest_ref_shape h h' _ (prompt vf)) in Hrun
      as (R0 & R1 & R2 & R3 & R4 & R5 & R6 & R7 & R8 & R9); [| exact Hpro].
    cbn in *. split_and!; auto.
Qed.

Lemma constructor_shares_lists_witness :
  let f : FieldsRef :=
    mkFields "sample" 0 1 None 3 Template None None false None 4 5
      true "react_en" true in
  exists g,
    __post_init___ref f sample_store = Some (Ok g, sample_store) /\
    tool_prompt g = Some (prompt g) /\ prompt g = 1 /\ suffix g = 3.
Proof.
  intros f. eexists. split; [vm_compute; reflexivity |].
  split; [| split; reflexivity].
  refine (proj1 (proj2 (proj2 (proj2 (proj2 (proj2
            (constructor_shares_lists sample_store sample_store f _ _
               eq_refl eq_refl)))))) eq_refl).
Defined.
